(** * Query filtering and CSV serialisation of [src/App.jsx]

    A shallow embedding of the two leaf components of the demo
    application: [mockSearch] (filter the record set by a query, sort by
    score) and the CSV helpers [escapeCSVValue] / [toCSV], together with
    the file-name construction of [exportFilteredCSV].

    Conventions of the embedding.
    - A JavaScript string is the list of its UTF-16 code units, each a
      number in [N] (below 65536 for a real string; no proof needs it).
    - [String.prototype.toLowerCase] is the host's Unicode case mapping.
      It is a function on whole strings (one code unit may lower to
      several) and is taken as a parameter [toLowerCase].  [asciiLower]
      is the instance used to run examples.
    - A cell value is [undefined], [null], a boolean, a Number that is
      a safe integer (below 2^53 in magnitude, where [String] prints
      plain decimal digits), a string, or an object or function that
      [String] converts, kept as the text [String] gives for it.  A
      cell that [String] cannot convert appears in [Dyn] only.
    - A row is a plain data object whose prototype is
      [Object.prototype], kept as the association list of its own
      enumerable properties in [Object.keys] order. *)

From Stdlib Require Import List ZArith NArith Lia Bool Arith.
From Stdlib Require Import String Ascii DecimalString.
From Stdlib Require Import Sorted Permutation.
Import ListNotations.

Local Open Scope Z_scope.

(* ================================================================== *)
(** ** JavaScript strings *)

Module JsString.

Definition unit16 := N.
Definition jsstring := list unit16.

(** An ASCII literal as a JavaScript string. *)
Definition js (s : string) : jsstring :=
  map N_of_ascii (list_ascii_of_string s).

Definition DQUOTE : unit16 := 34%N.
Definition COMMA : unit16 := 44%N.
Definition LF : unit16 := 10%N.
Definition CR : unit16 := 13%N.
Definition CRLF : jsstring := [CR; LF].

Definition eqs (a b : jsstring) : bool :=
  if list_eq_dec N.eq_dec a b then true else false.

(** WhiteSpace and LineTerminator of ECMAScript: what [trim] strips and
    what the regular-expression class [\s] matches. *)
Definition isWhiteSpace (c : unit16) : bool :=
  ((9 <=? c) && (c <=? 13) || (c =? 32) || (c =? 160) || (c =? 5760)
   || (8192 <=? c) && (c <=? 8202) || (c =? 8232) || (c =? 8233)
   || (c =? 8239) || (c =? 8287) || (c =? 12288) || (c =? 65279))%N.

Fixpoint dropWhile {A} (p : A -> bool) (l : list A) : list A :=
  match l with
  | [] => []
  | x :: t => if p x then dropWhile p t else l
  end.

Definition trimStart (s : jsstring) : jsstring := dropWhile isWhiteSpace s.
Definition trimEnd (s : jsstring) : jsstring :=
  rev (dropWhile isWhiteSpace (rev s)).

(** [String.prototype.trim] *)
Definition trim (s : jsstring) : jsstring := trimEnd (trimStart s).

Fixpoint startsWith (p s : jsstring) : bool :=
  match p, s with
  | [], _ => true
  | _ :: _, [] => false
  | a :: p', b :: s' => (a =? b)%N && startsWith p' s'
  end.

(** [String.prototype.includes]: is [q] a contiguous run of [s]? *)
Fixpoint includes (s q : jsstring) : bool :=
  startsWith q s ||
  match s with
  | [] => false
  | _ :: t => includes t q
  end.

(** [Array.prototype.join] on an array of strings. *)
Fixpoint join (sep : jsstring) (parts : list jsstring) : jsstring :=
  match parts with
  | [] => []
  | [p] => p
  | p :: rest => p ++ sep ++ join sep rest
  end.

(** Decimal text of an integer, as [String(n)] gives it for a Number
    that is a safe integer (below 2^53 in magnitude). *)
Definition ofZ (z : Z) : jsstring := js (NilZero.string_of_int (Z.to_int z)).

(** [String.prototype.padStart(n, "0")] *)
Definition padStart0 (n : nat) (s : jsstring) : jsstring :=
  repeat 48%N (n - List.length s) ++ s.

(** The ASCII part of the case mapping: [A]-[Z] to [a]-[z]. *)
Definition asciiLower (s : jsstring) : jsstring :=
  map (fun c => if ((65 <=? c) && (c <=? 90))%N then (c + 32)%N else c) s.

End JsString.
Import JsString.

(** The host's case mapping, [String.prototype.toLowerCase]. *)
Class Host := { toLowerCase : jsstring -> jsstring }.

(** The host restricted to ASCII text. *)
Definition asciiHost : Host := {| toLowerCase := asciiLower |}.

(* ================================================================== *)
(** ** Query engine: [MOCK_DATA] and [mockSearch] *)

Record Record_ := mkRecord {
  id : Z;
  name : jsstring;
  category : jsstring;
  score : Z
}.

Definition MOCK_DATA : list Record_ := [
  mkRecord 1 (js "Acme Analytics Suite") (js "Analytics") 92;
  mkRecord 2 (js "Beacon Billing") (js "FinTech") 84;
  mkRecord 3 (js "Cinder CRM") (js "Sales") 88;
  mkRecord 4 (js "Delta Docs") (js "Docs") 77;
  mkRecord 5 (js "Echo ETL") (js "Data") 81;
  mkRecord 6 (js "Flux Forecast") (js "Analytics") 90;
  mkRecord 7 (js "Glint Gateway") (js "FinTech") 73;
  mkRecord 8 (js "Helio Helpdesk") (js "Support") 85;
  mkRecord 9 (js "Iota Insights") (js "Analytics") 89;
  mkRecord 10 (js "Jolt Jira Sync") (js "DevTools") 80
].

(** [Array.prototype.sort(cmp)].  ECMAScript requires the sort to be
    stable; [a] is placed before [b] when [cmp a b < 0] and the two keep
    their order when [cmp a b = 0].  It is run here as an insertion sort
    from the right end. *)
Fixpoint insertBy {A} (cmp : A -> A -> Z) (x : A) (l : list A) : list A :=
  match l with
  | [] => [x]
  | y :: t => if cmp x y <=? 0 then x :: l else y :: insertBy cmp x t
  end.

Definition sort {A} (cmp : A -> A -> Z) (l : list A) : list A :=
  fold_right (insertBy cmp) [] l.

Record SearchResult := mkResult {
  items : list Record_;
  explanation : jsstring;
  tips : list jsstring
}.

Section QueryEngine.
Context {host : Host}.

(** [query.trim().toLowerCase()] *)
Definition normalize (query : jsstring) : jsstring :=
  toLowerCase (trim query).

(** The filter callback of [mockSearch]. *)
Definition matches (q : jsstring) (r : Record_) : bool :=
  includes (toLowerCase (name r)) q || includes (toLowerCase (category r)) q.

(** The comparator of [mockSearch]: [(a, b) => b.score - a.score]. *)
Definition byScoreDesc (a b : Record_) : Z := score b - score a.

(** [mockSearch], with the record collection it reads made explicit. *)
Definition mockSearchIn (data : list Record_) (query : jsstring)
  : SearchResult :=
  let q := normalize query in
  match q with
  | [] =>
      {| items := [];
         explanation :=
           js "Type a query and press Search. Results are mocked for demo.";
         tips :=
           [js "Filtering matches on name or category (case-insensitive)."] |}
  | _ :: _ =>
      let items := sort byScoreDesc (filter (matches q) data) in
      let explanation :=
        js "Showing " ++ ofZ (Z.of_nat (List.length items))
        ++ js " result(s) for " ++ [DQUOTE] ++ query ++ [DQUOTE]
        ++ js ". This mocked search filters by name/category and sorts by mocked "
        ++ [DQUOTE] ++ js "score" ++ [DQUOTE] ++ js " (desc)." in
      let tips := [
        js "Filter: name/category contains " ++ [DQUOTE] ++ query ++ [DQUOTE]
        ++ js " (case-insensitive).";
        js "Sort: score descending.";
        js "To go real, replace mockSearch() with an API call."
      ] in
      {| items := items; explanation := explanation; tips := tips |}
  end.

Definition mockSearch (query : jsstring) : SearchResult :=
  mockSearchIn MOCK_DATA query.

End QueryEngine.

(* ================================================================== *)
(** ** CSV helpers: [escapeCSVValue] and [toCSV] *)

(** A cell value that [String] converts.  [VNum n] is the Number [n], a
    safe integer; [VObject text] is an object or function, known by the
    text [String] gives for it. *)
Inductive value :=
| VUndefined
| VNull
| VBool (b : bool)
| VNum (n : Z)
| VStr (s : jsstring)
| VObject (text : jsstring).

(** [String(value)] *)
Definition ToString (v : value) : jsstring :=
  match v with
  | VUndefined => js "undefined"
  | VNull => js "null"
  | VBool true => js "true"
  | VBool false => js "false"
  | VNum n => ofZ n
  | VStr s => s
  | VObject text => text
  end.

(** The character class of the quoting test: double quote, comma, line
    feed, carriage return. *)
Definition isSpecial (c : unit16) : bool :=
  ((c =? DQUOTE) || (c =? COMMA) || (c =? LF) || (c =? CR))%N.

Definition head_is (p : unit16 -> bool) (s : jsstring) : bool :=
  match s with
  | [] => false
  | c :: _ => p c
  end.

(** The test of [needsQuotes]: a character of the class above anywhere,
    or [^\s], or [\s$].  Without the [m] flag [^] and [$] match at the two
    ends of the string only. *)
Definition needsQuotes (str : jsstring) : bool :=
  existsb isSpecial str
  || head_is isWhiteSpace str
  || head_is isWhiteSpace (rev str).

(** The global replace of [escapeCSVValue]: every double quote becomes
    two. *)
Definition doubleQuotes (str : jsstring) : jsstring :=
  flat_map (fun c => if (c =? DQUOTE)%N then [DQUOTE; DQUOTE] else [c]) str.

Definition escapeCSVValue (v : value) : jsstring :=
  match v with
  | VNull | VUndefined => []
  | _ =>
      let str := ToString v in
      let escaped := doubleQuotes str in
      if needsQuotes str then [DQUOTE] ++ escaped ++ [DQUOTE] else escaped
  end.

(** A row object: its own properties, in [Object.keys] order. *)
Definition row := list (jsstring * value).

Definition keys (r : row) : list jsstring := map fst r.

(** The text of a built-in function, as V8 and JavaScriptCore print it;
    other engines differ in the white space only. *)
Definition nativeFunction (fname : jsstring) : jsstring :=
  js "function " ++ fname ++ js "() { [native code] }".

Definition builtin (fname : string) : jsstring * value :=
  (js fname, VObject (nativeFunction (js fname))).

(** The standard properties of [Object.prototype], which every row
    inherits: eleven functions (the constructor is the function
    [Object]) and the accessor [__proto__], whose value is
    [Object.prototype] itself. *)
Definition objectPrototype : row :=
  [ (js "constructor", VObject (nativeFunction (js "Object")));
    builtin "__defineGetter__"; builtin "__defineSetter__";
    builtin "hasOwnProperty"; builtin "__lookupGetter__";
    builtin "__lookupSetter__"; builtin "isPrototypeOf";
    builtin "propertyIsEnumerable"; builtin "toString";
    builtin "valueOf";
    (js "__proto__", VObject (js "[object Object]"));
    builtin "toLocaleString" ].

Definition getOwn (r : row) (c : jsstring) : option value :=
  match find (fun kv => eqs (fst kv) c) r with
  | Some kv => Some (snd kv)
  | None => None
  end.

(** [r[c]]: the row's own property, else the one it inherits from
    [Object.prototype], else [undefined]. *)
Definition get (r : row) (c : jsstring) : value :=
  match getOwn r c with
  | Some v => v
  | None =>
      match getOwn objectPrototype c with
      | Some v => v
      | None => VUndefined
      end
  end.

(** The column list [cols] that [toCSV] settles on. *)
Definition resolveColumns (rows : list row) (columns : list jsstring)
  : list jsstring :=
  match columns with
  | _ :: _ => columns
  | [] =>
      match rows with
      | r0 :: _ => keys r0
      | [] => []
      end
  end.

Definition rowLine (cols : list jsstring) (r : row) : jsstring :=
  join [COMMA] (map (fun c => escapeCSVValue (get r c)) cols).

Definition toCSV (rows : list row) (columns : list jsstring) : jsstring :=
  let cols := resolveColumns rows columns in
  let header := join [COMMA] cols in
  let lines := map (rowLine cols) rows in
  join CRLF (header :: lines).

(** A record of the query engine as a row of the exporter. *)
Definition rowOfRecord (r : Record_) : row :=
  [ (js "id", VNum (id r)); (js "name", VStr (name r));
    (js "category", VStr (category r)); (js "score", VNum (score r)) ].

(* ================================================================== *)
(** ** Export file name: [timestamp] and [exportFilteredCSV] *)

(** What the getters of [new Date()] return, in local time. *)
Record LocalTime := mkTime {
  getFullYear : Z;
  getMonth : Z;       (* 0 .. 11 *)
  getDate : Z;
  getHours : Z;
  getMinutes : Z;
  getSeconds : Z
}.

(** [pad] of [timestamp]: [String(n).padStart(2, "0")]. *)
Definition pad (n : Z) : jsstring := padStart0 2 (ofZ n).

Definition timestamp (d : LocalTime) : jsstring :=
  ofZ (getFullYear d) ++ pad (getMonth d + 1) ++ pad (getDate d)
  ++ js "-" ++ pad (getHours d) ++ pad (getMinutes d) ++ pad (getSeconds d).

(** [submittedQuery || "empty"]: the empty string is the only falsy one. *)
Definition queryOrPlaceholder (submittedQuery : jsstring) : jsstring :=
  match submittedQuery with
  | [] => js "empty"
  | _ :: _ => submittedQuery
  end.

(** The [fname] of [exportFilteredCSV], at clock reading [d]. *)
Definition exportFilteredCSV_fname (submittedQuery : jsstring) (d : LocalTime)
  : jsstring :=
  js "results_" ++ queryOrPlaceholder submittedQuery ++ js "_"
  ++ timestamp d ++ js ".csv".

(* ================================================================== *)
(** ** Splitting, to state what a reader of the CSV text sees *)

(** [String.prototype.split(sep)] for a non-empty separator: the text is
    cut at each occurrence of [sep], found scanning from the left.
    [skip] counts the code units of a separator still to be passed over,
    [cur] holds the current piece, reversed. *)
Fixpoint splitFrom (sep : jsstring) (skip : nat) (cur s : jsstring)
  : list jsstring :=
  match s with
  | [] => [rev cur]
  | c :: t =>
      match skip with
      | S k => splitFrom sep k cur t
      | O =>
          if startsWith sep s
          then rev cur :: splitFrom sep (List.length sep - 1) [] t
          else splitFrom sep O (c :: cur) t
      end
  end.

Definition split (sep s : jsstring) : list jsstring := splitFrom sep 0 [] s.

(** Split on CRLF, then each line on commas. *)
Definition readTable (text : jsstring) : list (list jsstring) :=
  map (split [COMMA]) (split CRLF text).

(** The text of a cell before escaping: nothing for [null] and
    [undefined], [String(value)] otherwise. *)
Definition cellText (v : value) : jsstring :=
  match v with
  | VNull | VUndefined => []
  | _ => ToString v
  end.

(* ================================================================== *)
(** ** The same code with its failures

    JavaScript raises a [TypeError] when a property is read from, or a
    method called on, [undefined] or [null], and [String(value)] throws
    for an object it cannot convert: one without a usable [toString] or
    [valueOf], or one whose method throws.  [Dyn] writes the functions
    once more with every such step made explicit, so that where they
    fail and where they do not can be stated. *)

Module Dyn.

Inductive ref (A : Type) : Type :=
| Undefined
| Null
| Obj (a : A).
Arguments Undefined {A}.
Arguments Null {A}.
Arguments Obj {A} a.

(** [Raised] stands for what a [toString] or [valueOf] method of a cell
    throws. *)
Inductive error := TypeError | Raised.

Inductive outcome (A : Type) : Type :=
| Ret (a : A)
| Throw (e : error).
Arguments Ret {A} a.
Arguments Throw {A} e.

Definition bind {A B} (m : outcome A) (k : A -> outcome B) : outcome B :=
  match m with
  | Ret a => k a
  | Throw e => Throw e
  end.

Notation "x <- m ;; k" := (bind m (fun x => k))
  (at level 61, m at next level, right associativity).

(** Reading through a reference. *)
Definition deref {A} (r : ref A) : outcome A :=
  match r with
  | Obj a => Ret a
  | Undefined | Null => Throw TypeError
  end.

(** [Array.prototype.map] with a callback that may throw. *)
Fixpoint mapM {A B} (f : A -> outcome B) (l : list A) : outcome (list B) :=
  match l with
  | [] => Ret []
  | x :: t => y <- f x ;; ys <- mapM f t ;; Ret (y :: ys)
  end.

(** [undefined] and [null] are falsy, and so is an array of length 0 in
    [columns && columns.length]. *)
Definition truthyLength {A} (r : ref (list A)) : bool :=
  match r with
  | Obj (_ :: _) => true
  | _ => false
  end.

Section Functions.
Context {host : Host}.

Definition mockSearchIn (data : list Record_) (query : ref jsstring)
  : outcome SearchResult :=
  s <- deref query ;;                       (* query.trim() *)
  let q := toLowerCase (trim s) in
  match q with
  | [] =>
      Ret {| items := [];
             explanation :=
               js "Type a query and press Search. Results are mocked for demo.";
             tips :=
               [js "Filtering matches on name or category (case-insensitive)."] |}
  | _ :: _ =>
      let items := sort byScoreDesc (filter (matches q) data) in
      let explanation :=
        js "Showing " ++ ofZ (Z.of_nat (List.length items))
        ++ js " result(s) for " ++ [DQUOTE] ++ s ++ [DQUOTE]
        ++ js ". This mocked search filters by name/category and sorts by mocked "
        ++ [DQUOTE] ++ js "score" ++ [DQUOTE] ++ js " (desc)." in
      let tips := [
        js "Filter: name/category contains " ++ [DQUOTE] ++ s ++ [DQUOTE]
        ++ js " (case-insensitive).";
        js "Sort: score descending.";
        js "To go real, replace mockSearch() with an API call."
      ] in
      Ret {| items := items; explanation := explanation; tips := tips |}
  end.

End Functions.

(** A cell: a value that [String] converts, or an object for which
    [String(value)] throws [e]. *)
Inductive cell :=
| Value (v : value)
| Failing (e : error).

Definition drow := list (jsstring * cell).

Definition keys (r : drow) : list jsstring := map fst r.

(** [r[c]], through the prototype as above. *)
Definition get (r : drow) (c : jsstring) : cell :=
  match find (fun kv => eqs (fst kv) c) r with
  | Some kv => snd kv
  | None =>
      match getOwn objectPrototype c with
      | Some v => Value v
      | None => Value VUndefined
      end
  end.

(** [String(value)] *)
Definition ToString (c : cell) : outcome jsstring :=
  match c with
  | Value v => Ret (ToString v)
  | Failing e => Throw e
  end.

Definition escapeCSVValue (c : cell) : outcome jsstring :=
  match c with
  | Value VNull | Value VUndefined => Ret []
  | _ =>
      str <- ToString c ;;
      let escaped := doubleQuotes str in
      Ret (if needsQuotes str then [DQUOTE] ++ escaped ++ [DQUOTE] else escaped)
  end.


Definition toCSV (rows : ref (list (ref drow))) (columns : ref (list jsstring))
  : outcome jsstring :=
  cols <- (if truthyLength columns
           then deref columns
           else rs <- deref rows ;;                        (* rows.length *)
                match rs with
                | r0 :: _ => o <- deref r0 ;; Ret (keys o) (* Object.keys(rows[0]) *)
                | [] => Ret []
                end) ;;
  let header := join [COMMA] cols in
  rs <- deref rows ;;                                      (* rows.map *)
  lines <- mapM (fun r =>
                   cells <- mapM (fun c =>
                                    o <- deref r ;;        (* r[c] *)
                                    escapeCSVValue (get o c)) cols ;;
                   Ret (join [COMMA] cells)) rs ;;
  Ret (join CRLF (header :: lines)).

End Dyn.

(* ================================================================== *)
(** ** The same search over a store of arrays

    [filter] allocates a new array; [sort] reorders its receiver in place
    and returns it.  [Store] threads the arrays through [mockSearch] to
    show which ones a call writes. *)

Module Store.

Definition loc := nat.
Definition heap := list (list Record_).

Definition read (h : heap) (l : loc) : list Record_ := nth l h [].

Definition alloc (a : list Record_) (h : heap) : loc * heap :=
  (List.length h, h ++ [a]).

Fixpoint write (l : loc) (a : list Record_) (h : heap) : heap :=
  match h, l with
  | [], _ => []
  | _ :: t, O => a :: t
  | x :: t, S l' => x :: write l' a t
  end.

(** [Array.prototype.filter]: the receiver is read, the result is new. *)
Definition Array_filter (p : Record_ -> bool) (l : loc) (h : heap)
  : loc * heap :=
  alloc (filter p (read h l)) h.

(** [Array.prototype.sort]: the receiver is overwritten and returned. *)
Definition Array_sort (cmp : Record_ -> Record_ -> Z) (l : loc) (h : heap)
  : loc * heap :=
  (l, write l (sort cmp (read h l)) h).

(** A result whose [items] is a reference into the store. *)
Record SearchResultRef := mkRef {
  itemsRef : loc;
  explanationOf : jsstring;
  tipsOf : list jsstring
}.

Section Functions.
Context {host : Host}.

Definition mockSearch (MOCK : loc) (query : jsstring) (h : heap)
  : SearchResultRef * heap :=
  let q := toLowerCase (trim query) in
  match q with
  | [] =>
      let '(e, h1) := alloc [] h in
      ({| itemsRef := e;
          explanationOf :=
            js "Type a query and press Search. Results are mocked for demo.";
          tipsOf :=
            [js "Filtering matches on name or category (case-insensitive)."] |},
       h1)
  | _ :: _ =>
      let '(f, h1) := Array_filter (matches q) MOCK h in
      let '(items, h2) := Array_sort byScoreDesc f h1 in
      let explanation :=
        js "Showing " ++ ofZ (Z.of_nat (List.length (read h2 items)))
        ++ js " result(s) for " ++ [DQUOTE] ++ query ++ [DQUOTE]
        ++ js ". This mocked search filters by name/category and sorts by mocked "
        ++ [DQUOTE] ++ js "score" ++ [DQUOTE] ++ js " (desc)." in
      let tips := [
        js "Filter: name/category contains " ++ [DQUOTE] ++ query ++ [DQUOTE]
        ++ js " (case-insensitive).";
        js "Sort: score descending.";
        js "To go real, replace mockSearch() with an API call."
      ] in
      ({| itemsRef := items; explanationOf := explanation; tipsOf := tips |},
       h2)
  end.

End Functions.


End Store.

(* ================================================================== *)
(** ** [toCSV] over a store of objects and arrays

    The arguments of [toCSV] are references: [rows] to an array of
    references to row objects, [columns] to an array of strings.
    [Object.keys], [Array.prototype.map] and the array literal each make
    a new array; [CsvStore] threads the store through [toCSV] to show
    what a call writes. *)

Module CsvStore.

Definition loc := nat.

Inductive cell :=
| RowObject (r : row)
| ArrayOfRows (a : list loc)
| ArrayOfStrings (a : list jsstring).

Definition heap := list cell.

Definition rowAt (h : heap) (l : loc) : row :=
  match nth_error h l with
  | Some (RowObject r) => r
  | _ => []
  end.

Definition refsAt (h : heap) (l : loc) : list loc :=
  match nth_error h l with
  | Some (ArrayOfRows a) => a
  | _ => []
  end.

Definition stringsAt (h : heap) (l : loc) : list jsstring :=
  match nth_error h l with
  | Some (ArrayOfStrings a) => a
  | _ => []
  end.

Definition alloc (c : cell) (h : heap) : loc * heap :=
  (List.length h, h ++ [c]).

(** [Object.keys(r)]: a new array. *)
Definition Object_keys (r : loc) (h : heap) : loc * heap :=
  alloc (ArrayOfStrings (keys (rowAt h r))) h.

(** [cols.map((c) => escapeCSVValue(r[c]))]: a new array; the callback
    reads [r] and writes nothing. *)
Definition mapCells (r cols : loc) (h : heap) : loc * heap :=
  alloc (ArrayOfStrings
           (map (fun c => escapeCSVValue (get (rowAt h r) c))
                (stringsAt h cols))) h.

(** The callback of [rows.map]: [cols.map(...).join(",")]. *)
Definition lineOf (cols r : loc) (h : heap) : jsstring * heap :=
  let '(cells, h1) := mapCells r cols h in
  (join [COMMA] (stringsAt h1 cells), h1).

(** The elements of an array handed to a callback one after the other,
    the store passing from call to call. *)
Fixpoint forEach (cb : loc -> heap -> jsstring * heap) (rs : list loc)
  (h : heap) : list jsstring * heap :=
  match rs with
  | [] => ([], h)
  | r :: t =>
      let '(x, h1) := cb r h in
      let '(xs, h2) := forEach cb t h1 in
      (x :: xs, h2)
  end.

(** [rows.map(cb)]: the results, in a new array. *)
Definition mapRows (cb : loc -> heap -> jsstring * heap) (rows : loc)
  (h : heap) : loc * heap :=
  let '(lines, h1) := forEach cb (refsAt h rows) h in
  alloc (ArrayOfStrings lines) h1.

Definition toCSV (rows columns : loc) (h : heap) : jsstring * heap :=
  let '(cols, h1) :=
    match stringsAt h columns with
    | _ :: _ => (columns, h)
    | [] =>
        match refsAt h rows with
        | r0 :: _ => Object_keys r0 h
        | [] => alloc (ArrayOfStrings []) h
        end
    end in
  let header := join [COMMA] (stringsAt h1 cols) in
  let '(lines, h2) := mapRows (lineOf cols) rows h1 in
  let '(all, h3) := alloc (ArrayOfStrings (header :: stringsAt h2 lines)) h2 in
  (join CRLF (stringsAt h3 all), h3).

End CsvStore.

(* ================================================================== *)
(** ** The file name of the full export *)

(** The [fname] of [exportAllCSV], at clock reading [d]. *)
Definition exportAllCSV_fname (d : LocalTime) : jsstring :=
  js "results_all_" ++ timestamp d ++ js ".csv".

(* ================================================================== *)
(** ** A reader of CSV text

    What a consumer that follows RFC 4180 makes of a text: fields are
    separated by commas and records by CRLF; a field that opens with a
    double quote runs to the next double quote that is not doubled, and
    a doubled one stands for one double quote.  The reader is lenient:
    what follows a closing quote is read as unquoted text, and a lone
    carriage return is an ordinary character.  The table is built from
    the end of the text backwards, so the field being read is the first
    field of the first record of the rest.

    There are two readers.  [parse] takes every CRLF for a separator, so
    that a CRLF at the very end opens one more record of one empty
    field, as cutting the text at every CRLF would.  [read] follows
    RFC 4180, section 2, rule 2: the last record may or may not end
    with a CRLF, and a CRLF at the very end opens no record. *)

Module Rfc4180.

Definition table := list (list jsstring).

Inductive mode := FieldStart | Unquoted | Quoted.

(** Put [s] in front of the field being read. *)
Definition pushField (s : jsstring) (t : table) : table :=
  match t with
  | (f :: fs) :: rs => ((s ++ f) :: fs) :: rs
  | _ => t
  end.

(** A comma: an empty field opens in front of the record being read. *)
Definition newField (t : table) : table :=
  match t with
  | fs :: rs => ([] :: fs) :: rs
  | [] => []
  end.

(** A CRLF: a record of one empty field opens in front of the table. *)
Definition newRecord (t : table) : table := [[]] :: t.

Fixpoint parse (m : mode) (s : jsstring) : table :=
  match s with
  | [] => [[[]]]
  | c :: t =>
      match m with
      | Quoted =>
          if (c =? DQUOTE)%N then
            match t with
            | d :: t' =>
                if (d =? DQUOTE)%N
                then pushField [DQUOTE] (parse Quoted t')
                else parse Unquoted t
            | [] => [[[]]]
            end
          else pushField [c] (parse Quoted t)
      | FieldStart | Unquoted =>
          if match m with FieldStart => (c =? DQUOTE)%N | _ => false end
          then parse Quoted t
          else if (c =? COMMA)%N then newField (parse FieldStart t)
          else if (c =? CR)%N then
            match t with
            | d :: t' =>
                if (d =? LF)%N
                then newRecord (parse FieldStart t')
                else pushField [c] (parse Unquoted t)
            | [] => pushField [c] (parse Unquoted t)
            end
          else pushField [c] (parse Unquoted t)
      end
  end.

Definition parseCSV (text : jsstring) : table := parse FieldStart text.

Fixpoint read (m : mode) (s : jsstring) : table :=
  match s with
  | [] => [[[]]]
  | c :: t =>
      match m with
      | Quoted =>
          if (c =? DQUOTE)%N then
            match t with
            | d :: t' =>
                if (d =? DQUOTE)%N
                then pushField [DQUOTE] (read Quoted t')
                else read Unquoted t
            | [] => [[[]]]
            end
          else pushField [c] (read Quoted t)
      | FieldStart | Unquoted =>
          if match m with FieldStart => (c =? DQUOTE)%N | _ => false end
          then read Quoted t
          else if (c =? COMMA)%N then newField (read FieldStart t)
          else if (c =? CR)%N then
            match t with
            | d :: t' =>
                if (d =? LF)%N
                then match t' with
                     | [] => [[[]]]
                     | _ :: _ => newRecord (read FieldStart t')
                     end
                else pushField [c] (read Unquoted t)
            | [] => pushField [c] (read Unquoted t)
            end
          else pushField [c] (read Unquoted t)
      end
  end.

Definition readCSV (text : jsstring) : table := read FieldStart text.

End Rfc4180.

(* ================================================================== *)
(** ** The download: [downloadCSV] over a page

    The part of the browser that [downloadCSV] touches: the children of
    [document.body], the store that maps object URLs to blobs, the
    pending timeouts, and the downloads that clicks have started.
    Handles of new URLs and new elements are drawn from one counter. *)

Module Browser.

Definition BOM : unit16 := 65279%N.

Record Blob := mkBlob {
  blobText : jsstring;
  blobType : jsstring
}.

Definition url := nat.
Definition node := nat.

(** The callback handed to [setTimeout]. *)
Inductive task := RevokeObjectURL (u : url).

(** What a click on an anchor starts: the suggested file name, what the
    [href] resolves to at that moment, and whether the anchor was in the
    document. *)
Record download := mkDownload {
  fileName : jsstring;
  content : option Blob;
  attached : bool
}.

Record page := mkPage {
  children : list node;
  store : list (url * Blob);
  fresh : nat;
  timers : list (Z * task);
  started : list download
}.

(** The anchor [a] with its two attributes. *)
Record Anchor := mkAnchor {
  element : node;
  href : url;
  downloadAttr : jsstring
}.

Definition resolve (u : url) (p : page) : option Blob :=
  match find (fun e => Nat.eqb (fst e) u) (store p) with
  | Some e => Some (snd e)
  | None => None
  end.

(** [URL.createObjectURL(blob)] *)
Definition createObjectURL (b : Blob) (p : page) : url * page :=
  (fresh p,
   mkPage (children p) ((fresh p, b) :: store p) (S (fresh p))
          (timers p) (started p)).

(** [URL.revokeObjectURL(url)] *)
Definition revokeObjectURL (u : url) (p : page) : page :=
  mkPage (children p)
         (filter (fun e => negb (Nat.eqb (fst e) u)) (store p))
         (fresh p) (timers p) (started p).

(** [document.createElement("a")]: a new element, in no document yet. *)
Definition createElement (p : page) : node * page :=
  (fresh p,
   mkPage (children p) (store p) (S (fresh p)) (timers p) (started p)).

Definition detach (n : node) (l : list node) : list node :=
  filter (fun m => negb (Nat.eqb m n)) l.

(** [document.body.appendChild(a)]: [a] becomes the last child, leaving
    its old place if it had one. *)
Definition appendChild (n : node) (p : page) : page :=
  mkPage (detach n (children p) ++ [n]) (store p) (fresh p)
         (timers p) (started p).

(** [a.remove()] *)
Definition remove (n : node) (p : page) : page :=
  mkPage (detach n (children p)) (store p) (fresh p) (timers p) (started p).

(** [a.click()] on an anchor that has a [download] attribute. *)
Definition click (a : Anchor) (p : page) : page :=
  mkPage (children p) (store p) (fresh p) (timers p)
         (started p
          ++ [mkDownload (downloadAttr a) (resolve (href a) p)
                         (existsb (Nat.eqb (element a)) (children p))]).

(** [setTimeout(callback, ms)] *)
Definition setTimeout (t : task) (ms : Z) (p : page) : page :=
  mkPage (children p) (store p) (fresh p) (timers p ++ [(ms, t)]) (started p).

Definition runTask (t : task) (p : page) : page :=
  match t with
  | RevokeObjectURL u => revokeObjectURL u p
  end.

(** Every pending timeout comes due and runs, in the order set. *)
Definition runTimers (p : page) : page :=
  fold_left (fun q dt => runTask (snd dt) q) (timers p)
            (mkPage (children p) (store p) (fresh p) [] (started p)).

Definition downloadCSV (filename : jsstring) (rows : list row)
  (columns : list jsstring) (p : page) : page :=
  let csv := toCSV rows columns in
  let blob := mkBlob ([BOM] ++ csv) (js "text/csv;charset=utf-8") in
  let '(u, p1) := createObjectURL blob p in
  let '(a, p2) := createElement p1 in
  let anchor := mkAnchor a u filename in
  let p3 := appendChild a p2 in
  let p4 := click anchor p3 in
  let p5 := remove a p4 in
  setTimeout (RevokeObjectURL u) 1000 p5.

End Browser.

(* ================================================================== *)
(** ** The component: [App]

    The two pieces of state of [App], its three handlers, and the two
    export buttons.  [useMemo] recomputes [mockSearch(submittedQuery)]
    when [submittedQuery] changes; the result shown is that value. *)

Module App.

Record state := mkState {
  query : jsstring;
  submittedQuery : jsstring
}.

(** [useState] with the empty string, twice. *)
Definition initial : state := mkState [] [].

(** The [onChange] of the input: [setQuery(e.target.value)]. *)
Definition onChange (v : jsstring) (s : state) : state :=
  mkState v (submittedQuery s).

Definition onSubmit (s : state) : state := mkState (query s) (query s).

Definition onReset (s : state) : state := mkState [] [].

Definition columns : list jsstring :=
  [js "id"; js "name"; js "category"; js "score"].

Section Render.
Context {host : Host}.

(** The [{ items, explanation, tips }] of a render. *)
Definition result (data : list Record_) (s : state) : SearchResult :=
  mockSearchIn data (submittedQuery s).

Definition exportFilteredCSV (data : list Record_) (s : state)
  (d : LocalTime) (p : Browser.page) : Browser.page :=
  let fname := exportFilteredCSV_fname (submittedQuery s) d in
  Browser.downloadCSV fname (map rowOfRecord (items (result data s)))
                      columns p.

Definition exportAllCSV (data : list Record_) (d : LocalTime)
  (p : Browser.page) : Browser.page :=
  let fname := exportAllCSV_fname d in
  Browser.downloadCSV fname (map rowOfRecord data) columns p.

End Render.

End App.

(* ================================================================== *)
(** * Properties *)

(** ** What the claims speak of, as propositions *)

(** [q] occurs in [s] as a contiguous run. *)
Definition Substring (q s : jsstring) : Prop :=
  exists pre post, s = pre ++ q ++ post.

Definition LeadingSpace (s : jsstring) : Prop :=
  exists c t, s = c :: t /\ isWhiteSpace c = true.

Definition TrailingSpace (s : jsstring) : Prop :=
  exists t c, s = t ++ [c] /\ isWhiteSpace c = true.

(** The quoting rule in words: a double quote, a comma, a carriage
    return, a line feed, or white space at either end. *)
Definition MustQuote (s : jsstring) : Prop :=
  In DQUOTE s \/ In COMMA s \/ In CR s \/ In LF s
  \/ LeadingSpace s \/ TrailingSpace s.

(** Descending order of score, between a record and a later one. *)
Definition scoreGe (a b : Record_) : Prop := score a >= score b.



(** [n] written with exactly [width] decimal digits. *)
Fixpoint digits (width : nat) (n : Z) : jsstring :=
  match width with
  | O => []
  | S w => digits w (n / 10) ++ [Z.to_N (48 + n mod 10)]
  end.

(** A clock reading as [new Date()] gives it in the years 1000 to 9999. *)
Definition validClock (d : LocalTime) : Prop :=
  1000 <= getFullYear d <= 9999 /\ 0 <= getMonth d <= 11 /\
  1 <= getDate d <= 31 /\ 0 <= getHours d <= 23 /\
  0 <= getMinutes d <= 59 /\ 0 <= getSeconds d <= 59.

(** A reference that holds no object: [undefined] or [null]. *)
Definition noObject {A} (r : Dyn.ref A) : Prop :=
  match r with
  | Dyn.Obj _ => False
  | _ => True
  end.


(** The table [a] is the table [b], or [b] without a last record of one
    empty field. *)
Definition sameButLast (a b : Rfc4180.table) : Prop :=
  a = b \/ (a <> [] /\ b = a ++ [[[]]]).

(** The computation ends in an exception. *)
Definition throws {A} (m : Dyn.outcome A) : Prop := exists e, m = Dyn.Throw e.

(** Building the line of row [r] under the columns [cols] fails: the row
    is [undefined] or [null] and a cell is asked for, or a cell under
    one of the columns cannot be converted. *)
Definition rowFails (cols : list jsstring) (r : Dyn.ref Dyn.drow) : Prop :=
  match r with
  | Dyn.Obj o => exists c e, In c cols /\ Dyn.get o c = Dyn.Failing e
  | _ => cols <> []
  end.

(** A code unit outside the class of the quoting test, all along [s]. *)
Definition Bare (s : jsstring) : Prop :=
  forall c, In c s -> isSpecial c = false.

(** A field boundary: the end of the text, a comma, or a CRLF. *)
Definition boundary (rest : jsstring) : Prop :=
  rest = [] \/ (exists t, rest = COMMA :: t) \/ (exists t, rest = CR :: LF :: t).

(** The text [e] is read as the one field [f] when a boundary follows. *)
Definition Reads (e f : jsstring) : Prop :=
  forall rest, boundary rest ->
    Rfc4180.parse Rfc4180.FieldStart (e ++ rest)
    = Rfc4180.pushField f (Rfc4180.parse Rfc4180.FieldStart rest).

(** Handles in use lie below the counter. *)
Definition wellFormed (p : Browser.page) : Prop :=
  (forall n, In n (Browser.children p) -> (n < Browser.fresh p)%nat) /\
  (forall e, In e (Browser.store p) -> (fst e < Browser.fresh p)%nat).

(** The comparison [a < b] of two strings: code unit by code unit, a
    proper prefix first. *)
Fixpoint lexLt (a b : jsstring) : bool :=
  match a, b with
  | _, [] => false
  | [], _ :: _ => true
  | x :: a', y :: b' => (x <? y)%N || ((x =? y)%N && lexLt a' b')
  end.

(** The clock reading [d1] lies before [d2]. *)
Definition earlier (d1 d2 : LocalTime) : Prop :=
  getFullYear d1 < getFullYear d2 \/ getFullYear d1 = getFullYear d2 /\
  (getMonth d1 < getMonth d2 \/ getMonth d1 = getMonth d2 /\
  (getDate d1 < getDate d2 \/ getDate d1 = getDate d2 /\
  (getHours d1 < getHours d2 \/ getHours d1 = getHours d2 /\
  (getMinutes d1 < getMinutes d2 \/ getMinutes d1 = getMinutes d2 /\
   getSeconds d1 < getSeconds d2)))).

(** The four cells of a record under the columns of [App]. *)
Definition recordFields (r : Record_) : list jsstring :=
  [ofZ (id r); name r; category r; ofZ (score r)].

(** ** Examples *)

Example js_abc : js "a,b" = [97; 44; 98]%N.
Proof. reflexivity. Qed.

Example ofZ_samples :
  ofZ 92 = js "92" /\ ofZ 0 = js "0" /\ ofZ (-7) = js "-7".
Proof. repeat split; reflexivity. Qed.

Example trim_sample : trim (js "  Fin Tech  ") = js "Fin Tech".
Proof. reflexivity. Qed.

Example includes_sample :
  includes (js "acme analytics suite") (js "analytics") = true /\
  includes (js "sales") (js "analytics") = false /\
  includes (js "sales") [] = true.
Proof. repeat split; reflexivity. Qed.

Example padStart0_samples :
  padStart0 2 (ofZ 9) = js "09" /\ padStart0 2 (ofZ 12) = js "12" /\
  padStart0 2 (ofZ 123) = js "123".
Proof. repeat split; reflexivity. Qed.

Example split_samples :
  split [COMMA] (js "a,,b") = [js "a"; []; js "b"] /\
  split [COMMA] [] = [[]] /\
  split CRLF (js "a" ++ CRLF ++ js "b" ++ [CR]) = [js "a"; js "b" ++ [CR]].
Proof. repeat split; reflexivity. Qed.

Example mockSearch_analytics :
  map id (items (@mockSearch asciiHost (js " Analytics "))) = [1; 6; 9].
Proof. reflexivity. Qed.

Example toCSV_sample :
  toCSV (map rowOfRecord (firstn 2 MOCK_DATA)) [js "id"; js "name"; js "score"]
  = js "id,name,score" ++ CRLF ++ js "1,Acme Analytics Suite,92" ++ CRLF
    ++ js "2,Beacon Billing,84".
Proof. reflexivity. Qed.

Example toCSV_derived_columns :
  toCSV [[(js "k", VStr (js " x")); (js "n", VNull)]] []
  = js "k,n" ++ CRLF ++ [DQUOTE] ++ js " x" ++ [DQUOTE] ++ js ",".
Proof. reflexivity. Qed.

Example timestamp_sample :
  timestamp (mkTime 2025 8 25 2 15 30) = js "20250925-021530".
Proof. reflexivity. Qed.

(** ** Strings *)

Lemma startsWith_app (p s : jsstring) : startsWith p (p ++ s) = true.
Proof.
  induction p as [|a p IH]; simpl; [reflexivity|].
  now rewrite N.eqb_refl, IH.
Qed.

Lemma startsWith_inv (p s : jsstring) :
  startsWith p s = true -> exists t, s = p ++ t.
Proof.
  revert s; induction p as [|a p IH]; intros s H.
  - now exists s.
  - destruct s as [|b s]; simpl in H; [discriminate|].
    apply andb_true_iff in H as [Hab Hp].
    apply N.eqb_eq in Hab; subst b.
    destruct (IH _ Hp) as [t ->]. now exists t.
Qed.

Lemma includes_here (s q : jsstring) :
  startsWith q s = true -> includes s q = true.
Proof. intros H. destruct s; simpl; now rewrite H. Qed.

Lemma includes_Substring (s q : jsstring) :
  includes s q = true <-> Substring q s.
Proof.
  split.
  - induction s as [|c s IH]; simpl; intros H.
    + rewrite orb_false_r in H. apply startsWith_inv in H as [t ->].
      now exists [], t.
    + apply orb_true_iff in H as [H|H].
      * apply startsWith_inv in H as [t ->]. now exists [], t.
      * destruct (IH H) as (pre & post & ->). now exists (c :: pre), post.
  - intros (pre & post & ->).
    induction pre as [|c pre IH]; simpl.
    + apply includes_here, startsWith_app.
    + rewrite IH. apply orb_true_r.
Qed.

Lemma dropWhile_all {A} (p : A -> bool) (l : list A) :
  forallb p l = true -> dropWhile p l = [].
Proof.
  induction l as [|x l IH]; simpl; [reflexivity|].
  intros H; apply andb_true_iff in H as [ -> H]. auto.
Qed.

Lemma trim_all_space (s : jsstring) :
  forallb isWhiteSpace s = true -> trim s = [].
Proof.
  intros H. unfold trim, trimStart, trimEnd.
  now rewrite (dropWhile_all _ _ H).
Qed.

(** ** The quoting test *)

Lemma isSpecial_iff (c : unit16) :
  isSpecial c = true <-> c = DQUOTE \/ c = COMMA \/ c = CR \/ c = LF.
Proof.
  unfold isSpecial.
  rewrite !orb_true_iff, !N.eqb_eq. tauto.
Qed.

Lemma existsb_isSpecial (s : jsstring) :
  existsb isSpecial s = true <->
  In DQUOTE s \/ In COMMA s \/ In CR s \/ In LF s.
Proof.
  rewrite existsb_exists. split.
  - intros (c & Hin & Hc). apply isSpecial_iff in Hc.
    destruct Hc as [ -> | [ -> | [ -> | -> ] ] ]; tauto.
  - intros [H|[H|[H|H]]]; eexists; (split; [exact H | reflexivity]).
Qed.

Lemma head_is_leading (s : jsstring) :
  head_is isWhiteSpace s = true <-> LeadingSpace s.
Proof.
  split.
  - destruct s as [|c t]; simpl; [discriminate|]. intros H. now exists c, t.
  - intros (c & t & -> & H). exact H.
Qed.

Lemma head_is_trailing (s : jsstring) :
  head_is isWhiteSpace (rev s) = true <-> TrailingSpace s.
Proof.
  split.
  - destruct (rev s) as [|c t] eqn:E; simpl; [discriminate|]. intros H.
    exists (rev t), c. split; [|exact H].
    rewrite <- (rev_involutive s), E. reflexivity.
  - intros (t & c & -> & H). rewrite rev_app_distr. exact H.
Qed.

Lemma needsQuotes_iff (s : jsstring) :
  needsQuotes s = true <-> MustQuote s.
Proof.
  unfold needsQuotes, MustQuote.
  rewrite !orb_true_iff, existsb_isSpecial, head_is_leading, head_is_trailing.
  tauto.
Qed.

Lemma needsQuotes_false_iff (s : jsstring) :
  needsQuotes s = false <-> ~ MustQuote s.
Proof.
  rewrite <- needsQuotes_iff. destruct (needsQuotes s); split; congruence.
Qed.

Lemma doubleQuotes_app (a b : jsstring) :
  doubleQuotes (a ++ b) = doubleQuotes a ++ doubleQuotes b.
Proof. apply flat_map_app. Qed.

Lemma doubleQuotes_plain (s : jsstring) :
  ~ In DQUOTE s -> doubleQuotes s = s.
Proof.
  induction s as [|c s IH]; simpl; [reflexivity|]. intros H.
  destruct (N.eqb_spec c DQUOTE) as [->|_]; [tauto|].
  simpl. f_equal. tauto.
Qed.

Lemma doubleQuotes_at_quote (a b : jsstring) :
  doubleQuotes (a ++ DQUOTE :: b)
  = doubleQuotes a ++ [DQUOTE; DQUOTE] ++ doubleQuotes b.
Proof. rewrite doubleQuotes_app. reflexivity. Qed.

Lemma getOwn_absent (r : row) (c : jsstring) :
  ~ In c (keys r) -> getOwn r c = None.
Proof.
  unfold getOwn, keys. intros H.
  destruct (find _ r) as [kv|] eqn:E; [|reflexivity].
  apply find_some in E as [Hin Heq]. exfalso. apply H.
  unfold eqs in Heq. destruct (list_eq_dec N.eq_dec (fst kv) c); [|discriminate].
  subst c. now apply in_map.
Qed.

Lemma get_absent (r : row) (c : jsstring) :
  ~ In c (keys r) -> ~ In c (keys objectPrototype) -> get r c = VUndefined.
Proof.
  intros Hr Hp. unfold get. now rewrite !getOwn_absent.
Qed.

(** ** The value escaper *)

Lemma escapeCSVValue_quoted (v : value) :
  v <> VNull -> v <> VUndefined -> needsQuotes (ToString v) = true ->
  escapeCSVValue v = [DQUOTE] ++ doubleQuotes (ToString v) ++ [DQUOTE].
Proof.
  intros Hn Hu H. destruct v; try congruence; unfold escapeCSVValue;
    now rewrite H.
Qed.

Lemma escapeCSVValue_raw (v : value) :
  needsQuotes (cellText v) = false -> escapeCSVValue v = cellText v.
Proof.
  intros H.
  assert (Hq : ~ In DQUOTE (cellText v)).
  { apply needsQuotes_false_iff in H. unfold MustQuote in H. tauto. }
  destruct v; try reflexivity; unfold escapeCSVValue, cellText in *;
    rewrite H; now apply doubleQuotes_plain.
Qed.

(** C3, as the code has it.  [escapeCSVValue] gives the empty string
    for [null] and [undefined], hence for a key that neither the row nor
    [Object.prototype] has.  Any other value that [String] converts is
    converted by [String]; the result is wrapped in double quotes,
    with every double quote inside written twice, exactly when it holds
    a double quote, a comma, a carriage return, a line feed, or starts or
    ends with white space, and is emitted as it is otherwise.  The cell
    [Acme, Inc.] and the cell [Say "hi"] come out as the spec gives
    them. *)
Theorem escapeCSVValue_rule (v : value) :
  (v = VNull \/ v = VUndefined -> escapeCSVValue v = []) /\
  (forall (r : row) (c : jsstring),
      ~ In c (keys r) -> ~ In c (keys objectPrototype) ->
      escapeCSVValue (get r c) = []) /\
  (v <> VNull -> v <> VUndefined ->
   (MustQuote (ToString v) ->
    escapeCSVValue v = [DQUOTE] ++ doubleQuotes (ToString v) ++ [DQUOTE]) /\
   (~ MustQuote (ToString v) -> escapeCSVValue v = ToString v)) /\
  (forall a b : jsstring,
      doubleQuotes (a ++ DQUOTE :: b)
      = doubleQuotes a ++ [DQUOTE; DQUOTE] ++ doubleQuotes b) /\
  (forall a : jsstring, ~ In DQUOTE a -> doubleQuotes a = a) /\
  escapeCSVValue (VStr (js "Acme, Inc."))
  = [DQUOTE] ++ js "Acme, Inc." ++ [DQUOTE] /\
  escapeCSVValue (VStr (js "Say " ++ [DQUOTE] ++ js "hi" ++ [DQUOTE]))
  = [DQUOTE] ++ js "Say " ++ [DQUOTE; DQUOTE] ++ js "hi"
    ++ [DQUOTE; DQUOTE] ++ [DQUOTE].
Proof.
  split; [|split; [|split; [|split; [|split; [|split]]]]].
  - intros [->| ->]; reflexivity.
  - intros r c H H'. now rewrite (get_absent r c H H').
  - intros Hn Hu. split; intros H.
    + apply escapeCSVValue_quoted; auto. now apply needsQuotes_iff.
    + apply needsQuotes_false_iff in H.
      destruct v; try congruence; rewrite escapeCSVValue_raw; auto.
  - apply doubleQuotes_at_quote.
  - apply doubleQuotes_plain.
  - reflexivity.
  - reflexivity.
Qed.

Lemma escapeCSVValue_rule_witness :
  escapeCSVValue (VStr (js " x,y"))
  = [DQUOTE] ++ doubleQuotes (js " x,y") ++ [DQUOTE]
  /\ escapeCSVValue (VNum 92) = js "92"
  /\ escapeCSVValue (get [(js "id", VNum 1)] (js "name")) = [].
Proof.
  split; [|split].
  - destruct (escapeCSVValue_rule (VStr (js " x,y"))) as (_ & _ & H & _).
    destruct H as [H _]; [discriminate | discriminate |].
    apply H. right; left. vm_compute. tauto.
  - destruct (escapeCSVValue_rule (VNum 92)) as (_ & _ & H & _).
    destruct H as [_ H]; [discriminate | discriminate |].
    apply H. apply needsQuotes_false_iff. reflexivity.
  - destruct (escapeCSVValue_rule VNull) as (_ & H & _).
    apply H.
    + vm_compute. intros [H0|[]]. discriminate.
    + vm_compute. intuition discriminate.
Defined.

(** C3 as stated fails on a key the row inherits: a row without the key
    [toString] still has a value under it, the built-in function, and
    the cell is its text. *)
Lemma escapeCSVValue_inherited_key_counterexample :
  ~ In (js "toString") (keys [(js "a", VNum 1)]) /\
  escapeCSVValue (get [(js "a", VNum 1)] (js "toString"))
  = js "function toString() { [native code] }" /\
  ~ (forall (r : row) (c : jsstring),
        ~ In c (keys r) -> escapeCSVValue (get r c) = []).
Proof.
  assert (A : ~ In (js "toString") (keys [(js "a", VNum 1)])).
  { vm_compute. intros [H|[]]. discriminate H. }
  split; [exact A|]. split; [reflexivity|].
  intros H. specialize (H [(js "a", VNum 1)] (js "toString") A).
  discriminate H.
Qed.

(** ** Column resolution and line joining *)

(** C5.  [toCSV] uses a non-empty [columns] as given, in that order, for
    the header and for every row; with [columns] empty it takes the keys
    of the first row, in key order; with no row either the column list
    is empty and the output is the empty text, which reads as one empty
    line.  Header and row lines are joined by carriage return followed
    by line feed. *)
Theorem toCSV_columns (rows : list row) (columns : list jsstring) :
  (columns <> [] ->
   toCSV rows columns
   = join [13; 10]%N
       (join [COMMA] columns
        :: map (fun r =>
                  join [COMMA] (map (fun c => escapeCSVValue (get r c)) columns))
             rows)) /\
  (forall r0 rest, columns = [] -> rows = r0 :: rest ->
   toCSV rows columns
   = join [13; 10]%N
       (join [COMMA] (keys r0)
        :: map (fun r =>
                  join [COMMA] (map (fun c => escapeCSVValue (get r c)) (keys r0)))
             rows)) /\
  (columns = [] -> rows = [] ->
   resolveColumns rows columns = [] /\ toCSV rows columns = [] /\
   split CRLF (toCSV rows columns) = [[]]).
Proof.
  split; [|split].
  - intros H. destruct columns; [congruence|]. reflexivity.
  - intros r0 rest -> ->. reflexivity.
  - intros -> ->. repeat split.
Qed.

Lemma toCSV_columns_witness :
  toCSV (map rowOfRecord MOCK_DATA) [js "score"; js "id"]
  = join [13; 10]%N
      (js "score,id"
       :: map (fun r =>
                 join [COMMA]
                   (map (fun c => escapeCSVValue (get r c)) [js "score"; js "id"]))
            (map rowOfRecord MOCK_DATA))
  /\ toCSV [[(js "b", VNum 2); (js "a", VNum 1)]] [] = js "b,a" ++ CRLF ++ js "2,1"
  /\ toCSV [] [] = [].
Proof.
  split; [|split].
  - apply (proj1 (toCSV_columns (map rowOfRecord MOCK_DATA) [js "score"; js "id"])).
    discriminate.
  - apply (proj1 (proj2 (toCSV_columns [[(js "b", VNum 2); (js "a", VNum 1)]] []))
             _ _ eq_refl eq_refl).
  - apply (proj2 (proj2 (toCSV_columns [] [])) eq_refl eq_refl).
Defined.

(** ** The header line *)

(** C1.  The header is the column names joined by commas as they are:
    [toCSV] does not pass them through [escapeCSVValue].  A column name
    with a comma stays bare in the header, where the same string as a
    cell is quoted, and the header then reads as two columns. *)
Theorem toCSV_header_not_escaped :
  (forall c columns, toCSV [] (c :: columns) = join [COMMA] (c :: columns)) /\
  toCSV [] [js "a,b"] = js "a,b" /\
  escapeCSVValue (VStr (js "a,b")) = [DQUOTE] ++ js "a,b" ++ [DQUOTE] /\
  toCSV [[(js "a,b", VStr (js "a,b"))]] []
  = js "a,b" ++ CRLF ++ [DQUOTE] ++ js "a,b" ++ [DQUOTE] /\
  readTable (toCSV [] [js "a,b"]) = [[js "a"; js "b"]].
Proof. repeat split. Qed.

(** ** Joining and splitting *)

Lemma join_cons2 (sep p q : jsstring) (rest : list jsstring) :
  join sep (p :: q :: rest) = p ++ sep ++ join sep (q :: rest).
Proof. reflexivity. Qed.


Lemma in_join (x : unit16) (sep : jsstring) (parts : list jsstring) :
  In x (join sep parts) -> In x sep \/ exists p, In p parts /\ In x p.
Proof.
  induction parts as [|p parts IH]; [intros []|].
  destruct parts as [|q parts].
  - intros H. right. exists p. split; [now left | exact H].
  - rewrite join_cons2, !in_app_iff. intros [H|[H|H]].
    + right. exists p. split; [now left | exact H].
    + now left.
    + destruct (IH H) as [H'|(p' & Hp' & Hx)]; [now left|].
      right. exists p'. split; [now right | exact Hx].
Qed.

Lemma splitFrom_skip (sep a cur r : jsstring) :
  splitFrom sep (List.length a) cur (a ++ r) = splitFrom sep 0 cur r.
Proof.
  induction a as [|x a IH]; simpl.
  - destruct r; reflexivity.
  - exact IH.
Qed.

Lemma splitFrom_piece (c0 : unit16) (sep' p cur r : jsstring) :
  ~ In c0 p ->
  splitFrom (c0 :: sep') 0 cur (p ++ r)
  = splitFrom (c0 :: sep') 0 (rev p ++ cur) r.
Proof.
  revert cur. induction p as [|x p IH]; intros cur H; [reflexivity|].
  simpl in H. cbn [app splitFrom startsWith].
  destruct (N.eqb_spec c0 x) as [->|_]; [tauto|].
  cbn [andb]. rewrite IH by tauto.
  cbn [rev]. now rewrite <- app_assoc.
Qed.

(** Splitting undoes joining when no piece holds the first code unit of
    the separator. *)
Lemma split_join (c0 : unit16) (sep' : jsstring) (parts : list jsstring) :
  parts <> [] ->
  (forall p, In p parts -> ~ In c0 p) ->
  split (c0 :: sep') (join (c0 :: sep') parts) = parts.
Proof.
  unfold split.
  induction parts as [|p parts IH]; [congruence|]. intros _ Hp.
  destruct parts as [|q parts].
  - cbn [join]. rewrite <- (app_nil_r p) at 1.
    rewrite splitFrom_piece by (apply Hp; now left).
    cbn [splitFrom]. now rewrite app_nil_r, rev_involutive.
  - rewrite join_cons2, splitFrom_piece by (apply Hp; now left).
    rewrite app_nil_r.
    cbn [app splitFrom].
    change (startsWith (c0 :: sep') (c0 :: sep' ++ join (c0 :: sep') (q :: parts)))
      with (startsWith (c0 :: sep') ((c0 :: sep') ++ join (c0 :: sep') (q :: parts))).
    rewrite startsWith_app, rev_involutive.
    cbn [List.length]. rewrite Nat.sub_succ, Nat.sub_0_r, splitFrom_skip.
    f_equal. apply IH; [discriminate|].
    intros p' Hin. apply Hp. now right.
Qed.

(** ** Where a line ends *)





Lemma in_doubleQuotes (x : unit16) (s : jsstring) :
  In x (doubleQuotes s) -> In x s.
Proof.
  unfold doubleQuotes. rewrite in_flat_map. intros (c & Hc & Hx).
  destruct (N.eqb_spec c DQUOTE) as [->|_].
  - destruct Hx as [<-|[<-|[]]]; exact Hc.
  - destruct Hx as [<-|[]]; exact Hc.
Qed.

Lemma in_escapeCSVValue (x : unit16) (v : value) :
  In x (escapeCSVValue v) -> x = DQUOTE \/ In x (cellText v).
Proof.
  destruct v; try (intros []); unfold escapeCSVValue, cellText;
    (destruct (needsQuotes _);
     [ rewrite !in_app_iff; intros [[<-|[]]|[H|[<-|[]]]]; auto;
       right; now apply in_doubleQuotes
     | intros H; right; now apply in_doubleQuotes ]).
Qed.




(** ** The lines of the output *)

Lemma header_no_CR (cols : list jsstring) :
  (forall c, In c cols -> ~ In CR c) -> ~ In CR (join [COMMA] cols).
Proof.
  intros H Hin. apply in_join in Hin as [[E|[]]|(p & Hp & Hx)].
  - discriminate.
  - exact (H p Hp Hx).
Qed.

Lemma rowLine_no_CR (cols : list jsstring) (r : row) :
  (forall c, In c cols -> ~ In CR (cellText (get r c))) ->
  ~ In CR (rowLine cols r).
Proof.
  intros H Hin. apply in_join in Hin as [[E|[]]|(p & Hp & Hx)].
  - discriminate.
  - apply in_map_iff in Hp as (c & <- & Hc).
    apply in_escapeCSVValue in Hx as [E|Hx]; [discriminate|].
    exact (H c Hc Hx).
Qed.

Lemma toCSV_split_lines (rows : list row) (columns : list jsstring) :
  (forall c, In c (resolveColumns rows columns) -> ~ In CR c) ->
  (forall r c, In r rows -> In c (resolveColumns rows columns) ->
               ~ In CR (cellText (get r c))) ->
  split CRLF (toCSV rows columns)
  = join [COMMA] (resolveColumns rows columns)
    :: map (rowLine (resolveColumns rows columns)) rows.
Proof.
  intros Hc Hr. unfold toCSV, CRLF. apply split_join; [discriminate|].
  intros l [<-|Hl].
  - now apply header_no_CR.
  - apply in_map_iff in Hl as (r & <- & Hin).
    apply rowLine_no_CR. intros c. now apply Hr.
Qed.





(** ** Reading the output back *)

Lemma rowLine_plain (cols : list jsstring) (r : row) :
  (forall c, In c cols -> ~ MustQuote (cellText (get r c))) ->
  rowLine cols r = join [COMMA] (map (fun c => cellText (get r c)) cols).
Proof.
  intros H. unfold rowLine. f_equal. apply map_ext_in. intros c Hc.
  apply escapeCSVValue_raw, needsQuotes_false_iff, H, Hc.
Qed.

(** C8, as the code has it.  When the resolved column list is not empty
    and neither a column name nor a cell text needs quoting, splitting
    the output on CRLF and each line on commas gives back the column
    names followed by the cell texts of every row, in order. *)
Theorem toCSV_round_trip (rows : list row) (columns : list jsstring) :
  resolveColumns rows columns <> [] ->
  (forall c, In c (resolveColumns rows columns) -> ~ MustQuote c) ->
  (forall r c, In r rows -> In c (resolveColumns rows columns) ->
               ~ MustQuote (cellText (get r c))) ->
  readTable (toCSV rows columns)
  = resolveColumns rows columns
    :: map (fun r => map (fun c => cellText (get r c))
                       (resolveColumns rows columns)) rows.
Proof.
  set (cols := resolveColumns rows columns). intros Hne Hc Hr.
  unfold readTable. rewrite toCSV_split_lines; fold cols.
  - cbn [map]. f_equal.
    + apply split_join; [exact Hne|].
      intros c Hin Hx. apply (Hc c Hin). unfold MustQuote. tauto.
    + rewrite map_map. apply map_ext_in. intros r Hin.
      rewrite rowLine_plain by (intros c; now apply Hr).
      apply split_join.
      * destruct cols; [congruence | discriminate].
      * intros p Hp Hx. apply in_map_iff in Hp as (c & <- & Hcin).
        apply (Hr r c Hin Hcin). unfold MustQuote. tauto.
  - intros c Hin Hx. apply (Hc c Hin). unfold MustQuote. tauto.
  - intros r c Hin Hcin Hx. apply (Hr r c Hin Hcin). unfold MustQuote. tauto.
Qed.

Lemma toCSV_round_trip_witness :
  readTable (toCSV (map rowOfRecord MOCK_DATA)
                   [js "id"; js "name"; js "category"; js "score"])
  = [js "id"; js "name"; js "category"; js "score"]
    :: map (fun r => map (fun c => cellText (get r c))
                       [js "id"; js "name"; js "category"; js "score"])
         (map rowOfRecord MOCK_DATA).
Proof.
  apply (toCSV_round_trip (map rowOfRecord MOCK_DATA)
           [js "id"; js "name"; js "category"; js "score"]).
  - discriminate.
  - intros c Hc. apply needsQuotes_false_iff. revert c Hc.
    apply Forall_forall. repeat constructor.
  - intros r c Hr Hc. apply needsQuotes_false_iff. revert c Hc.
    apply Forall_forall. revert r Hr. apply Forall_forall.
    repeat (constructor; [repeat constructor|]). constructor.
Defined.

(** C8 as stated fails on the empty table: the empty output reads back
    as one line with one empty field, not as an empty header. *)
Lemma toCSV_round_trip_counterexample :
  readTable (toCSV [] []) = [[[]]] /\
  ~ (forall rows columns,
        (forall c, In c (resolveColumns rows columns) -> ~ MustQuote c) ->
        (forall r c, In r rows -> In c (resolveColumns rows columns) ->
                     ~ MustQuote (cellText (get r c))) ->
        readTable (toCSV rows columns)
        = resolveColumns rows columns
          :: map (fun r => map (fun c => cellText (get r c))
                             (resolveColumns rows columns)) rows).
Proof.
  split; [reflexivity|]. intros H.
  specialize (H [] []). cbn in H.
  assert (E : [[@nil unit16]] = [[]]) by (apply H; intros; contradiction).
  discriminate E.
Qed.

(** ** Sorting *)

Section SortFacts.
Context {A : Type} (cmp : A -> A -> Z).

Lemma insertBy_perm (x : A) (l : list A) :
  Permutation (insertBy cmp x l) (x :: l).
Proof.
  induction l as [|y l IH]; simpl; [reflexivity|].
  destruct (cmp x y <=? 0); [reflexivity|].
  rewrite IH. apply perm_swap.
Qed.

Lemma sort_perm (l : list A) : Permutation (sort cmp l) l.
Proof.
  induction l as [|x l IH]; simpl; [reflexivity|].
  rewrite insertBy_perm. now constructor.
Qed.

Lemma sort_In (x : A) (l : list A) : In x (sort cmp l) <-> In x l.
Proof.
  split; apply Permutation_in; [|symmetry]; apply sort_perm.
Qed.

End SortFacts.

Lemma insertBy_score_sorted (x : Record_) (l : list Record_) :
  StronglySorted scoreGe l ->
  StronglySorted scoreGe (insertBy byScoreDesc x l).
Proof.
  induction 1 as [|y l Hs IH Hy]; simpl.
  - repeat constructor.
  - unfold byScoreDesc at 1. destruct (Z.leb_spec (score y - score x) 0) as [Hle|Hgt].
    + constructor; [now constructor|].
      constructor; [unfold scoreGe; lia|].
      eapply Forall_impl; [|exact Hy]. unfold scoreGe. intros; lia.
    + constructor; [exact IH|].
      eapply Permutation_Forall; [symmetry; apply insertBy_perm|].
      constructor; [unfold scoreGe; lia | exact Hy].
Qed.

Lemma sort_score_sorted (l : list Record_) :
  StronglySorted scoreGe (sort byScoreDesc l).
Proof.
  induction l as [|x l IH]; simpl; [constructor|].
  now apply insertBy_score_sorted.
Qed.

Lemma insertBy_score_filter (k : Z) (x : Record_) (l : list Record_) :
  filter (fun r => score r =? k) (insertBy byScoreDesc x l)
  = filter (fun r => score r =? k) (x :: l).
Proof.
  induction l as [|y l IH]; [reflexivity|]. cbn [insertBy].
  unfold byScoreDesc at 1.
  destruct (Z.leb_spec (score y - score x) 0) as [Hle|Hgt]; [reflexivity|].
  cbn [filter] in *. rewrite IH.
  destruct (Z.eqb_spec (score x) k), (Z.eqb_spec (score y) k);
    try reflexivity; lia.
Qed.

(** Stability: records of one score stand in the order they had. *)
Lemma sort_score_stable (k : Z) (l : list Record_) :
  filter (fun r => score r =? k) (sort byScoreDesc l)
  = filter (fun r => score r =? k) l.
Proof.
  induction l as [|x l IH]; [reflexivity|]. cbn [sort fold_right].
  rewrite insertBy_score_filter. cbn [filter]. fold (sort byScoreDesc l).
  now rewrite IH.
Qed.

(** ** The query engine *)

Section QueryFacts.
Context {host : Host}.

Lemma matches_iff (q : jsstring) (r : Record_) :
  matches q r = true <->
  Substring q (toLowerCase (name r)) \/ Substring q (toLowerCase (category r)).
Proof.
  unfold matches. now rewrite orb_true_iff, !includes_Substring.
Qed.

Lemma mockSearchIn_items (data : list Record_) (query : jsstring) :
  normalize query <> [] ->
  items (mockSearchIn data query)
  = sort byScoreDesc (filter (matches (normalize query)) data).
Proof.
  unfold mockSearchIn. destruct (normalize query); [congruence|]. reflexivity.
Qed.

(** C2.  For a query whose normalised form is not empty, every record of
    [items] has the normalised query inside its lower-cased name or
    category, every record of [items] is a record of the collection
    searched, [items] is in descending order of score, and for each
    score the records of that score stand in [items] in the order they
    have in the collection. *)
Theorem mockSearch_items (data : list Record_) (query : jsstring) :
  normalize query <> [] ->
  let q := normalize query in
  let found := items (mockSearchIn data query) in
  (forall r, In r found ->
     Substring q (toLowerCase (name r))
     \/ Substring q (toLowerCase (category r))) /\
  (forall r, In r found -> In r data) /\
  StronglySorted (fun a b => score a >= score b) found /\
  (forall k, filter (fun r => score r =? k) found
             = filter (fun r => (score r =? k) && matches q r) data).
Proof.
  intros H q found. subst found. rewrite (mockSearchIn_items data query H).
  fold q. repeat split.
  - intros r Hr. apply sort_In, filter_In in Hr as [_ Hm].
    now apply matches_iff.
  - intros r Hr. now apply sort_In, filter_In in Hr as [Hr _].
  - apply sort_score_sorted.
  - intros k. rewrite sort_score_stable.
    induction data as [|r data IH]; [reflexivity|]. cbn [filter].
    destruct (matches q r) eqn:Em, (score r =? k) eqn:Ek; cbn [filter andb].
    all: try rewrite Ek; try rewrite IH; reflexivity.
Qed.

End QueryFacts.

Lemma mockSearch_items_witness :
  let q := @normalize asciiHost (js " Analytics ") in
  let found := items (@mockSearchIn asciiHost MOCK_DATA (js " Analytics ")) in
  (forall r, In r found ->
     Substring q (asciiLower (name r)) \/ Substring q (asciiLower (category r))) /\
  (forall r, In r found -> In r MOCK_DATA) /\
  StronglySorted (fun a b => score a >= score b) found /\
  (forall k, filter (fun r => score r =? k) found
             = filter (fun r => (score r =? k) && @matches asciiHost q r)
                 MOCK_DATA).
Proof.
  apply (@mockSearch_items asciiHost MOCK_DATA (js " Analytics ")).
  vm_compute. discriminate.
Defined.

(** ** The empty query *)

Section EmptyQuery.
Context {host : Host}.

(** C4.  When the trimmed, lower-cased query is empty, as it is for the
    empty and for an all-white-space query, [mockSearch] returns no
    items, the fixed instruction as explanation and one tip, whatever
    the records are.  A query that is not empty after normalising gets
    another explanation and three tips, also when nothing matches. *)
Theorem mockSearch_empty_query (data : list Record_) (query : jsstring) :
  (normalize query = [] ->
   mockSearchIn data query
   = {| items := [];
        explanation :=
          js "Type a query and press Search. Results are mocked for demo.";
        tips :=
          [js "Filtering matches on name or category (case-insensitive)."] |}) /\
  (forallb isWhiteSpace query = true -> toLowerCase [] = [] ->
   normalize query = []) /\
  (normalize query <> [] ->
   explanation (mockSearchIn data query)
   <> js "Type a query and press Search. Results are mocked for demo." /\
   List.length (tips (mockSearchIn data query)) = 3%nat).
Proof.
  unfold mockSearchIn. split; [|split].
  - now intros ->.
  - intros Hw Hl. unfold normalize. now rewrite trim_all_space.
  - intros H. destruct (normalize query); [congruence|]. split.
    + intros E. cbn in E. discriminate E.
    + reflexivity.
Qed.

End EmptyQuery.

Lemma mockSearch_empty_query_witness :
  @mockSearchIn asciiHost MOCK_DATA (js "   ")
  = {| items := [];
       explanation :=
         js "Type a query and press Search. Results are mocked for demo.";
       tips :=
         [js "Filtering matches on name or category (case-insensitive)."] |}
  /\ @normalize asciiHost [9; 32; 160]%N = []
  /\ List.length (tips (@mockSearchIn asciiHost MOCK_DATA (js "zzz"))) = 3%nat.
Proof.
  split; [|split].
  - apply (proj1 (@mockSearch_empty_query asciiHost MOCK_DATA (js "   "))).
    reflexivity.
  - apply (proj1 (proj2 (@mockSearch_empty_query asciiHost [] [9; 32; 160]%N)));
      reflexivity.
  - apply (proj2 (proj2 (@mockSearch_empty_query asciiHost MOCK_DATA (js "zzz")))).
    vm_compute. discriminate.
Defined.

(** ** The export file name *)

Lemma eqs_true (a b : jsstring) : eqs a b = true -> a = b.
Proof. unfold eqs. destruct (list_eq_dec N.eq_dec a b); [auto | discriminate]. Qed.

Lemma digits_length (w : nat) (n : Z) : List.length (digits w n) = w.
Proof.
  revert n. induction w as [|w IH]; intros n; [reflexivity|].
  cbn [digits]. rewrite length_app, IH. cbn. lia.
Qed.

Lemma in_range_by_cases (P : Z -> bool) (lo len : nat) (n : Z) :
  forallb (fun k => P (Z.of_nat k)) (seq lo len) = true ->
  Z.of_nat lo <= n < Z.of_nat (lo + len) -> P n = true.
Proof.
  intros H Hn. rewrite forallb_forall in H.
  rewrite <- (Z2Nat.id n) by lia. apply H, in_seq. lia.
Qed.

Lemma pad_digits (n : Z) : 0 <= n <= 99 -> pad n = digits 2 n.
Proof.
  intros H. apply eqs_true.
  apply (in_range_by_cases (fun k => eqs (pad k) (digits 2 k)) 0 100%nat);
    [vm_compute; reflexivity | cbn; lia].
Qed.

Lemma year_digits (y : Z) : 1000 <= y <= 9999 -> ofZ y = digits 4 y.
Proof.
  intros H. apply eqs_true.
  apply (in_range_by_cases (fun k => eqs (ofZ k) (digits 4 k))
           (Z.to_nat 1000) (Z.to_nat 9000));
    [vm_compute; reflexivity | cbn; lia].
Qed.

(** The shape of the file name.  At a clock reading in the years 1000 to
    9999, the file name of the filtered export is [results_], the
    submitted query or the token [empty] when the query is the empty
    string, [_], the time stamp and [.csv]; the middle part is never the
    empty string; the stamp is the year in four digits, month, day, a
    hyphen, hour, minute and second in two digits each, of the local
    time. *)
Lemma exportFilteredCSV_fname_pattern
  (submittedQuery : jsstring) (d : LocalTime) :
  validClock d ->
  let segment := queryOrPlaceholder submittedQuery in
  let stamp :=
    digits 4 (getFullYear d) ++ digits 2 (getMonth d + 1)
    ++ digits 2 (getDate d) ++ js "-" ++ digits 2 (getHours d)
    ++ digits 2 (getMinutes d) ++ digits 2 (getSeconds d) in
  exportFilteredCSV_fname submittedQuery d
  = js "results_" ++ segment ++ js "_" ++ stamp ++ js ".csv" /\
  timestamp d = stamp /\
  List.length stamp = 15%nat /\
  segment <> [] /\
  (submittedQuery = [] -> segment = js "empty") /\
  (submittedQuery <> [] -> segment = submittedQuery).
Proof.
  intros (Hy & Hmo & Hd & Hh & Hmi & Hs) segment stamp.
  assert (E : timestamp d = stamp).
  { unfold timestamp, stamp.
    now rewrite year_digits, !pad_digits by lia. }
  split; [|split; [|split; [|split; [|split]]]].
  - unfold exportFilteredCSV_fname. now rewrite E.
  - exact E.
  - unfold stamp. now rewrite !length_app, !digits_length.
  - unfold segment, queryOrPlaceholder. destruct submittedQuery; discriminate.
  - now intros ->.
  - unfold segment. destruct submittedQuery; [congruence | reflexivity].
Qed.

Lemma exportFilteredCSV_fname_pattern_witness :
  exportFilteredCSV_fname [] (mkTime 2025 8 5 2 15 30)
  = js "results_empty_20250905-021530.csv"
  /\ exportFilteredCSV_fname (js "FinTech") (mkTime 2025 8 5 2 15 30)
     = js "results_FinTech_20250905-021530.csv".
Proof.
  assert (V : validClock (mkTime 2025 8 5 2 15 30)).
  { unfold validClock. cbn. lia. }
  split.
  - exact (proj1 (exportFilteredCSV_fname_pattern [] _ V)).
  - exact (proj1 (exportFilteredCSV_fname_pattern (js "FinTech") _ V)).
Defined.

(** C6.  Only the empty string is replaced by the token [empty]: any
    other submitted query is the middle part of the file name as it is.
    A query of two spaces, which [mockSearch] trims to the empty query
    and answers with the instruction, gives the file name [results_],
    two spaces, [_], the stamp and [.csv]: a blank middle part. *)
Theorem exportFilteredCSV_fname_blank_segment :
  (forall c q, queryOrPlaceholder (c :: q) = c :: q) /\
  (forall d,
      exportFilteredCSV_fname (js "  ") d
      = js "results_" ++ js "  " ++ js "_" ++ timestamp d ++ js ".csv") /\
  exportFilteredCSV_fname (js "  ") (mkTime 2025 8 25 2 15 30)
  = js "results_  _20250925-021530.csv" /\
  trim (js "  ") = [] /\
  @mockSearchIn asciiHost MOCK_DATA (js "  ")
  = @mockSearchIn asciiHost MOCK_DATA [].
Proof. repeat split. Qed.

(** ** No failure on well-typed arguments *)




Lemma Dyn_escape_value (v : value) :
  Dyn.escapeCSVValue (Dyn.Value v) = Dyn.Ret (escapeCSVValue v).
Proof. destruct v; reflexivity. Qed.

Example Dyn_toCSV_throws :
  Dyn.toCSV Dyn.Null (Dyn.Obj [js "a"]) = Dyn.Throw Dyn.TypeError /\
  Dyn.toCSV (Dyn.Obj [Dyn.Null]) (Dyn.Obj [js "a"]) = Dyn.Throw Dyn.TypeError /\
  Dyn.toCSV (Dyn.Obj [Dyn.Undefined]) Dyn.Undefined = Dyn.Throw Dyn.TypeError /\
  Dyn.toCSV (Dyn.Obj [Dyn.Obj []; Dyn.Null]) (Dyn.Obj [])
  = Dyn.Ret (CRLF ++ CRLF) /\
  Dyn.toCSV (Dyn.Obj [Dyn.Obj [(js "a", Dyn.Failing Dyn.Raised)]]) (Dyn.Obj [js "b"])
  = Dyn.Ret (js "b" ++ CRLF).
Proof. repeat split. Qed.

Example Dyn_mockSearch_throws :
  @Dyn.mockSearchIn asciiHost MOCK_DATA Dyn.Undefined = Dyn.Throw Dyn.TypeError.
Proof. reflexivity. Qed.



(** ** What a search writes *)






(** Reading the store that [toCSV] runs on. *)








Section StoreFacts.
Context {host : Host}.



End StoreFacts.


(* ================================================================== *)
(** * Further properties of the code *)

(** ** Reading escaped text with the CSV reader *)

Example parseCSV_samples :
  Rfc4180.parseCSV (js "a,b" ++ CRLF ++ [DQUOTE] ++ js "x," ++ [DQUOTE; DQUOTE]
                    ++ CRLF ++ js "y" ++ [DQUOTE] ++ js ",")
  = [[js "a"; js "b"]; [js "x," ++ [DQUOTE] ++ CRLF ++ js "y"; []]]
  /\ Rfc4180.parseCSV [] = [[[]]]
  /\ Rfc4180.parseCSV (js "a" ++ CRLF) = [[js "a"]; [[]]].
Proof. repeat split. Qed.

Lemma pushField_nil (t : Rfc4180.table) : Rfc4180.pushField [] t = t.
Proof. destruct t as [|[|f fs] rs]; reflexivity. Qed.

Lemma pushField_app (a b : jsstring) (t : Rfc4180.table) :
  Rfc4180.pushField a (Rfc4180.pushField b t) = Rfc4180.pushField (a ++ b) t.
Proof.
  destruct t as [|[|f fs] rs]; try reflexivity.
  cbn. now rewrite app_assoc.
Qed.

Lemma boundary_not_quote (rest : jsstring) :
  boundary rest -> forall t, rest <> DQUOTE :: t.
Proof.
  intros [->|[[t' ->]|[t' ->]]] t; discriminate.
Qed.

Lemma parse_at_boundary (rest : jsstring) :
  boundary rest ->
  Rfc4180.parse Rfc4180.Unquoted rest = Rfc4180.parse Rfc4180.FieldStart rest.
Proof.
  intros [->|[[t ->]|[t ->]]]; reflexivity.
Qed.

Lemma parse_unquoted_run (s rest : jsstring) :
  Bare s ->
  Rfc4180.parse Rfc4180.Unquoted (s ++ rest)
  = Rfc4180.pushField s (Rfc4180.parse Rfc4180.Unquoted rest).
Proof.
  induction s as [|c s IH]; intros H.
  - now rewrite pushField_nil.
  - assert (Hc : isSpecial c = false) by (apply H; now left).
    unfold isSpecial in Hc. rewrite !orb_false_iff in Hc.
    destruct Hc as [[[_ Hcomma] _] Hcr].
    cbn [app Rfc4180.parse]. rewrite Hcomma, Hcr.
    rewrite IH by (intros x Hx; apply H; now right).
    now rewrite pushField_app.
Qed.

Lemma Reads_bare (s : jsstring) : Bare s -> Reads s s.
Proof.
  intros H rest Hb. destruct s as [|c s].
  - cbn [app]. now rewrite pushField_nil.
  - assert (Hc : isSpecial c = false) by (apply H; now left).
    unfold isSpecial in Hc. rewrite !orb_false_iff in Hc.
    destruct Hc as [[[Hq Hcomma] _] Hcr].
    cbn [app Rfc4180.parse]. rewrite Hq, Hcomma, Hcr.
    rewrite parse_unquoted_run by (intros x Hx; apply H; now right).
    rewrite pushField_app, parse_at_boundary by exact Hb. reflexivity.
Qed.

Lemma parse_quoted_run (s rest : jsstring) :
  boundary rest ->
  Rfc4180.parse Rfc4180.Quoted (doubleQuotes s ++ DQUOTE :: rest)
  = Rfc4180.pushField s (Rfc4180.parse Rfc4180.Unquoted rest).
Proof.
  intros Hb. induction s as [|c s IH].
  - rewrite pushField_nil. cbn [doubleQuotes flat_map app Rfc4180.parse].
    rewrite N.eqb_refl.
    destruct Hb as [->|[[t ->]|[t ->]]]; reflexivity.
  - change (doubleQuotes (c :: s))
      with ((if (c =? DQUOTE)%N then [DQUOTE; DQUOTE] else [c])
            ++ doubleQuotes s).
    destruct (N.eqb_spec c DQUOTE) as [->|Hc].
    + cbn [app Rfc4180.parse]. rewrite N.eqb_refl, IH.
      now rewrite pushField_app.
    + cbn [app Rfc4180.parse].
      apply N.eqb_neq in Hc. rewrite Hc, IH.
      now rewrite pushField_app.
Qed.

Lemma Reads_cell (v : value) : Reads (escapeCSVValue v) (cellText v).
Proof.
  intros rest Hb.
  destruct (needsQuotes (cellText v)) eqn:E.
  - assert (Hv : v <> VNull /\ v <> VUndefined)
      by (split; intros ->; discriminate E).
    assert (Ht : cellText v = ToString v)
      by (destruct v; try reflexivity; tauto).
    rewrite Ht in *.
    rewrite escapeCSVValue_quoted by tauto.
    rewrite <- !app_assoc. cbn [app Rfc4180.parse].
    rewrite N.eqb_refl, parse_quoted_run by exact Hb.
    now rewrite parse_at_boundary.
  - rewrite escapeCSVValue_raw by exact E.
    apply Reads_bare; [|exact Hb].
    intros c Hc. apply needsQuotes_false_iff in E.
    destruct (isSpecial c) eqn:Es; [|reflexivity].
    exfalso. apply E. apply isSpecial_iff in Es. unfold MustQuote.
    destruct Es as [ -> | [ -> | [ -> | -> ] ] ]; tauto.
Qed.

(** A line of fields, followed by the end of the text or by a CRLF. *)
Lemma parse_record (es fs : list jsstring) (rest : jsstring)
  (T : Rfc4180.table) :
  Forall2 Reads es fs -> es <> [] ->
  boundary rest ->
  Rfc4180.parse Rfc4180.FieldStart rest = [[]] :: T ->
  Rfc4180.parse Rfc4180.FieldStart (join [COMMA] es ++ rest) = fs :: T.
Proof.
  intros HF. induction HF as [|e f es fs He HF IH]; [congruence|].
  intros _ Hb HT. destruct HF as [|e2 f2 es fs He2 HF].
  - cbn [join]. rewrite He, HT by exact Hb. cbn. now rewrite app_nil_r.
  - rewrite join_cons2, <- !app_assoc.
    rewrite He by (right; left; eexists; reflexivity).
    cbn [app Rfc4180.parse]. cbn [N.eqb COMMA DQUOTE Pos.eqb].
    rewrite IH by (try discriminate; assumption).
    cbn. now rewrite app_nil_r.
Qed.

(** Lines joined by CRLF are read as one record each. *)
Lemma parse_lines (ls : list (list jsstring * list jsstring)) :
  ls <> [] ->
  (forall l, In l ls -> fst l <> [] /\ Forall2 Reads (fst l) (snd l)) ->
  Rfc4180.parseCSV (join CRLF (map (fun l => join [COMMA] (fst l)) ls))
  = map snd ls.
Proof.
  unfold Rfc4180.parseCSV.
  induction ls as [|l ls IH]; [congruence|]. intros _ H.
  destruct (H l (or_introl eq_refl)) as [Hne HF].
  destruct ls as [|l2 ls].
  - cbn [map join]. rewrite <- (app_nil_r (join [COMMA] (fst l))).
    apply parse_record; auto. now left.
  - cbn [map]. rewrite join_cons2.
    apply parse_record; auto.
    + right; right. eexists. reflexivity.
    + unfold CRLF. cbn [app Rfc4180.parse]. cbn [N.eqb CR LF DQUOTE COMMA Pos.eqb].
      unfold Rfc4180.newRecord. f_equal.
      apply IH; [discriminate|]. intros l' Hl'. apply H. now right.
Qed.

Lemma Forall2_map_same {A B C} (R : B -> C -> Prop) (f : A -> B) (g : A -> C)
  (l : list A) :
  (forall x, In x l -> R (f x) (g x)) -> Forall2 R (map f l) (map g l).
Proof.
  induction l as [|x l IH]; intros H; cbn; constructor.
  - apply H. now left.
  - apply IH. intros y Hy. apply H. now right.
Qed.

(** The whole output, read back. *)
Lemma parseCSV_toCSV (rows : list row) (columns : list jsstring) :
  resolveColumns rows columns <> [] ->
  (forall c, In c (resolveColumns rows columns) -> Bare c) ->
  Rfc4180.parseCSV (toCSV rows columns)
  = resolveColumns rows columns
    :: map (fun r => map (fun c => cellText (get r c))
                       (resolveColumns rows columns)) rows.
Proof.
  set (cols := resolveColumns rows columns). intros Hne Hc.
  pose (ls := (cols, cols)
              :: map (fun r => (map (fun c => escapeCSVValue (get r c)) cols,
                                map (fun c => cellText (get r c)) cols)) rows).
  assert (E1 : toCSV rows columns
               = join CRLF (map (fun l => join [COMMA] (fst l)) ls)).
  { unfold toCSV. fold cols. unfold ls. cbn [map fst]. now rewrite map_map. }
  assert (E2 : cols :: map (fun r => map (fun c => cellText (get r c)) cols) rows
               = map snd ls).
  { unfold ls. cbn [map snd]. now rewrite map_map. }
  rewrite E1, E2. apply parse_lines; [discriminate|].
  intros l [<-|Hl]; cbn [fst snd].
  - split; [exact Hne|].
    rewrite <- (map_id cols) at 1. rewrite <- (map_id cols) at 2.
    apply Forall2_map_same. intros c Hin. apply Reads_bare, Hc, Hin.
  - apply in_map_iff in Hl as (r & <- & _). cbn [fst snd]. split.
    + destruct cols; [congruence | discriminate].
    + apply Forall2_map_same. intros c _. apply Reads_cell.
Qed.

(** The two readers differ by a last record at most. *)

Lemma sameButLast_pushField (f : jsstring) (a b : Rfc4180.table) :
  sameButLast a b ->
  sameButLast (Rfc4180.pushField f a) (Rfc4180.pushField f b).
Proof.
  intros [->|[Hne ->]]; [now left|]. right.
  destruct a as [|[|f0 fs] rs]; [congruence| |]; cbn;
    (split; [discriminate | reflexivity]).
Qed.

Lemma sameButLast_newField (a b : Rfc4180.table) :
  sameButLast a b -> sameButLast (Rfc4180.newField a) (Rfc4180.newField b).
Proof.
  intros [->|[Hne ->]]; [now left|]. right.
  destruct a as [|r rs]; [congruence|]. cbn.
  split; [discriminate | reflexivity].
Qed.

Lemma sameButLast_newRecord (a b : Rfc4180.table) :
  sameButLast a b -> sameButLast (Rfc4180.newRecord a) (Rfc4180.newRecord b).
Proof.
  intros [->|[Hne ->]]; [now left|]. right.
  split; [discriminate | reflexivity].
Qed.

Lemma read_sameButLast_parse (s : jsstring) (m : Rfc4180.mode) :
  sameButLast (Rfc4180.read m s) (Rfc4180.parse m s).
Proof.
  revert m.
  assert (H : forall n s, (List.length s <= n)%nat ->
                forall m, sameButLast (Rfc4180.read m s) (Rfc4180.parse m s)).
  { induction n as [|n IH]; intros s0 Hs m.
    - destruct s0; [now left | cbn in Hs; lia].
    - destruct s0 as [|c t]; [now left|]. cbn in Hs.
      assert (Ht : forall m', sameButLast (Rfc4180.read m' t) (Rfc4180.parse m' t))
        by (intros m'; apply IH; lia).
      assert (Ht' : forall d t', t = d :: t' ->
                forall m', sameButLast (Rfc4180.read m' t') (Rfc4180.parse m' t')).
      { intros d t' -> m'. apply IH. cbn in Hs. lia. }
      destruct m; cbn [Rfc4180.read Rfc4180.parse].
      + (* FieldStart *)
        destruct (c =? DQUOTE)%N; [apply Ht|].
        destruct (c =? COMMA)%N; [apply sameButLast_newField, Ht|].
        destruct (c =? CR)%N; [|apply sameButLast_pushField, Ht].
        destruct t as [|d t']; [apply sameButLast_pushField, Ht|].
        destruct (d =? LF)%N; [|apply sameButLast_pushField, Ht].
        destruct t' as [|x t''].
        * right. split; [discriminate | reflexivity].
        * apply sameButLast_newRecord. now apply (Ht' d).
      + (* Unquoted *)
        destruct (c =? COMMA)%N; [apply sameButLast_newField, Ht|].
        destruct (c =? CR)%N; [|apply sameButLast_pushField, Ht].
        destruct t as [|d t']; [apply sameButLast_pushField, Ht|].
        destruct (d =? LF)%N; [|apply sameButLast_pushField, Ht].
        destruct t' as [|x t''].
        * right. split; [discriminate | reflexivity].
        * apply sameButLast_newRecord. now apply (Ht' d).
      + (* Quoted *)
        destruct (c =? DQUOTE)%N; [|apply sameButLast_pushField, Ht].
        destruct t as [|d t']; [now left|].
        destruct (d =? DQUOTE)%N; [|apply Ht].
        apply sameButLast_pushField. now apply (Ht' d). }
  intros m. now apply (H (List.length s)).
Qed.

Example readCSV_samples :
  Rfc4180.readCSV (js "a,b" ++ CRLF ++ js "c,d" ++ CRLF)
  = [[js "a"; js "b"]; [js "c"; js "d"]]
  /\ Rfc4180.readCSV (js "a,b" ++ CRLF ++ js "c,d")
     = [[js "a"; js "b"]; [js "c"; js "d"]]
  /\ Rfc4180.readCSV (toCSV [[(js "note", VNull)]] [js "note"])
     = [[js "note"]].
Proof. repeat split. Qed.

(** X1.  Whatever the cells hold (commas, double quotes, line breaks,
    white space), a reader that follows RFC 4180, for which a CRLF at
    the end of the text opens no record, gets back from the output of
    [toCSV] the column names followed, row by row, by the text of every
    cell, provided there is at least one column, no column name holds a
    double quote, a comma, a carriage return or a line feed, and the
    last row is not one single cell of empty text. *)
Theorem toCSV_read_back (rows : list row) (columns : list jsstring) :
  resolveColumns rows columns <> [] ->
  (forall c, In c (resolveColumns rows columns) -> Bare c) ->
  (rows <> [] ->
   map (fun c => cellText (get (last rows []) c)) (resolveColumns rows columns)
   <> [[]]) ->
  Rfc4180.readCSV (toCSV rows columns)
  = resolveColumns rows columns
    :: map (fun r => map (fun c => cellText (get r c))
                       (resolveColumns rows columns)) rows.
Proof.
  intros Hne Hc Hlast.
  assert (P := parseCSV_toCSV rows columns Hne Hc).
  unfold Rfc4180.readCSV, Rfc4180.parseCSV in *.
  destruct (read_sameButLast_parse (toCSV rows columns) Rfc4180.FieldStart)
    as [E|[Ha E]]; [now rewrite E|].
  exfalso. rewrite P in E.
  set (cols := resolveColumns rows columns) in *.
  assert (D : rows = [] \/ rows <> [])
    by (destruct rows; [now left | right; discriminate]).
  destruct D as [Er|Hr].
  - subst rows. apply (f_equal (@List.length _)) in E.
    rewrite length_app in E. cbn [map List.length] in E.
    apply Ha, length_zero_iff_nil. lia.
  - destruct (exists_last Hr) as (init & r & Er).
    apply (Hlast Hr). rewrite Er, last_last.
    rewrite Er, map_app in E. cbn [map] in E.
    rewrite app_comm_cons in E. apply app_inj_tail in E as [_ E]. exact E.
Qed.

Lemma toCSV_read_back_witness :
  Rfc4180.readCSV
    (toCSV [[(js "name", VStr (js " Acme, Inc."));
             (js "note", VStr (js "Say " ++ [DQUOTE] ++ js "hi" ++ [DQUOTE] ++ CRLF))];
            [(js "note", VNum (-3))]] [])
  = [[js "name"; js "note"];
     [js " Acme, Inc."; js "Say " ++ [DQUOTE] ++ js "hi" ++ [DQUOTE] ++ CRLF];
     [[]; js "-3"]].
Proof.
  apply (toCSV_read_back
           [[(js "name", VStr (js " Acme, Inc."));
             (js "note", VStr (js "Say " ++ [DQUOTE] ++ js "hi" ++ [DQUOTE] ++ CRLF))];
            [(js "note", VNum (-3))]] []).
  - discriminate.
  - intros c Hc x Hx. cbn in Hc.
    destruct Hc as [<-|[<-|[]]]; cbn in Hx;
      repeat (destruct Hx as [<-|Hx]; [reflexivity|]); destruct Hx.
  - intros _. vm_compute. discriminate.
Defined.

(** X2.  With the same non-empty list of plain column names, two row
    sets that give the same CSV text have the same number of rows and
    the same text in every cell: the output loses nothing but the
    difference between values of equal text. *)
Theorem toCSV_same_text (rows rows' : list row) (columns : list jsstring) :
  columns <> [] ->
  (forall c, In c columns -> Bare c) ->
  toCSV rows columns = toCSV rows' columns ->
  map (fun r => map (fun c => cellText (get r c)) columns) rows
  = map (fun r => map (fun c => cellText (get r c)) columns) rows'
  /\ List.length rows = List.length rows'.
Proof.
  intros Hne Hc E.
  assert (R : forall rs, resolveColumns rs columns = columns)
    by (intros rs; destruct columns; [congruence | reflexivity]).
  assert (P := parseCSV_toCSV rows columns).
  assert (P' := parseCSV_toCSV rows' columns).
  rewrite R in P, P'. rewrite E, P' in P by assumption.
  specialize (P Hne Hc). injection P as P.
  split; [now symmetry|].
  apply (f_equal (@List.length _)) in P. rewrite !length_map in P.
  now symmetry.
Qed.

Lemma toCSV_same_text_witness :
  map (fun r => map (fun c => cellText (get r c)) [js "n"; js "m"])
      [[(js "n", VNum 1); (js "m", VNull)]]
  = map (fun r => map (fun c => cellText (get r c)) [js "n"; js "m"])
      [[(js "n", VStr (js "1")); (js "x", VBool true)]]
  /\ List.length [[(js "n", VNum 1); (js "m", VNull)]]
     = List.length [[(js "n", VStr (js "1")); (js "x", VBool true)]].
Proof.
  apply (toCSV_same_text
           [[(js "n", VNum 1); (js "m", VNull)]]
           [[(js "n", VStr (js "1")); (js "x", VBool true)]]
           [js "n"; js "m"]).
  - discriminate.
  - intros c Hc x Hx. cbn in Hc.
    destruct Hc as [<-|[<-|[]]]; cbn in Hx;
      repeat (destruct Hx as [<-|Hx]; [reflexivity|]); destruct Hx.
  - reflexivity.
Defined.

(** X3.  The text [escapeCSVValue] gives for a value is read by a CSV
    reader as one record of one field, and that field is the text of the
    value: no content can open a second field or a second record. *)
Theorem escapeCSVValue_one_field (v : value) :
  Rfc4180.parseCSV (escapeCSVValue v) = [[cellText v]].
Proof.
  unfold Rfc4180.parseCSV.
  rewrite <- (app_nil_r (escapeCSVValue v)).
  rewrite (Reads_cell v []) by now left.
  cbn. now rewrite app_nil_r.
Qed.

(** ** More on the search *)

(** Filtering a collection keeps its [id]s distinct. *)
Lemma filter_keeps_ids_distinct (keep : Record_ -> bool) (data : list Record_) :
  NoDup (map id data) -> NoDup (map id (filter keep data)).
Proof.
  induction data as [|r data IH]; cbn [map filter]; [trivial|].
  rewrite NoDup_cons_iff. intros [Hr Hrest].
  destruct (keep r); [|now apply IH].
  cbn [map]. apply NoDup_cons; [|now apply IH].
  contradict Hr. apply in_map_iff in Hr as (r' & Eid & Hin).
  apply in_map_iff. exists r'. split; [exact Eid|].
  now apply filter_In in Hin.
Qed.

Lemma trimStart_space_prefix (w s : jsstring) :
  forallb isWhiteSpace w = true -> trimStart (w ++ s) = trimStart s.
Proof.
  unfold trimStart. induction w as [|c w IH]; cbn; [reflexivity|].
  intros H. apply andb_true_iff in H as [ -> H]. auto.
Qed.

Lemma trimEnd_space_suffix (s w : jsstring) :
  forallb isWhiteSpace w = true -> trimEnd (s ++ w) = trimEnd s.
Proof.
  intros H. unfold trimEnd. rewrite rev_app_distr. f_equal.
  apply (trimStart_space_prefix (rev w) (rev s)).
  rewrite forallb_forall in *. intros x Hx. apply H. now apply in_rev.
Qed.

Lemma trim_space_suffix (s w : jsstring) :
  forallb isWhiteSpace w = true -> trim (s ++ w) = trim s.
Proof.
  intros H. unfold trim. induction s as [|c s IH].
  - cbn [app]. unfold trimStart. now rewrite (dropWhile_all _ _ H).
  - unfold trimStart in *. cbn [app dropWhile].
    destruct (isWhiteSpace c); [exact IH|].
    now apply (trimEnd_space_suffix (c :: s) w).
Qed.

Lemma trim_padding (w1 s w2 : jsstring) :
  forallb isWhiteSpace w1 = true -> forallb isWhiteSpace w2 = true ->
  trim (w1 ++ s ++ w2) = trim s.
Proof.
  intros H1 H2. unfold trim at 1. rewrite trimStart_space_prefix by exact H1.
  now apply trim_space_suffix.
Qed.

Lemma Substring_trans (a b c : jsstring) :
  Substring a b -> Substring b c -> Substring a c.
Proof.
  intros (p1 & q1 & ->) (p2 & q2 & ->).
  exists (p2 ++ p1), (q1 ++ q2). now rewrite <- !app_assoc.
Qed.

Lemma insertBy_at_head (x : Record_) (l : list Record_) :
  Forall (scoreGe x) l -> insertBy byScoreDesc x l = x :: l.
Proof.
  intros H. destruct l as [|y l]; [reflexivity|]. cbn [insertBy].
  inversion H as [|? ? Hy _]; subst. unfold byScoreDesc, scoreGe in *.
  destruct (Z.leb_spec (score y - score x) 0); [reflexivity | lia].
Qed.

Lemma filter_insertBy (p : Record_ -> bool) (x : Record_) (l : list Record_) :
  StronglySorted scoreGe l ->
  filter p (insertBy byScoreDesc x l)
  = if p x then insertBy byScoreDesc x (filter p l) else filter p l.
Proof.
  induction 1 as [|y l Hs IH Hy].
  - cbn. destruct (p x); reflexivity.
  - cbn [insertBy]. unfold byScoreDesc at 1.
    destruct (Z.leb_spec (score y - score x) 0) as [Hle|Hgt].
    + cbn [filter]. destruct (p x); [|reflexivity].
      symmetry. change (if p y then y :: filter p l else filter p l)
        with (filter p (y :: l)).
      apply insertBy_at_head.
      apply Forall_forall. intros z Hz. apply filter_In in Hz as [Hz _].
      destruct Hz as [<-|Hz]; [unfold scoreGe; lia|].
      rewrite Forall_forall in Hy. specialize (Hy z Hz).
      unfold scoreGe in *. lia.
    + cbn [filter]. rewrite IH.
      destruct (p y), (p x); try reflexivity.
      cbn [insertBy]. unfold byScoreDesc at 2.
      destruct (Z.leb_spec (score y - score x) 0); [lia | reflexivity].
Qed.

(** Filtering commutes with the sort. *)
Lemma filter_sort (p : Record_ -> bool) (l : list Record_) :
  filter p (sort byScoreDesc l) = sort byScoreDesc (filter p l).
Proof.
  induction l as [|x l IH]; [reflexivity|].
  cbn [sort fold_right]. fold (sort byScoreDesc l).
  rewrite filter_insertBy by apply sort_score_sorted.
  rewrite IH. cbn [filter]. destruct (p x); reflexivity.
Qed.

Section MoreQueryFacts.
Context {host : Host}.

Lemma matches_narrow (a b : jsstring) (r : Record_) :
  Substring a b -> matches b r = true -> matches a r = true.
Proof.
  intros H. rewrite !matches_iff.
  intros [Hb|Hb]; [left|right]; eapply Substring_trans; eauto.
Qed.

(** X4.  For a query that is not empty after normalising, [items] holds
    exactly the records of the collection whose lower-cased name or
    category contains the normalised query, each as often as the
    collection has it: every such record is returned, [items] is a
    rearrangement of what any exact test of that condition keeps of the
    collection, and records with distinct [id]s in the collection have
    distinct [id]s in [items]. *)
Theorem mockSearch_complete (data : list Record_) (query : jsstring) :
  normalize query <> [] ->
  (forall r, In r data ->
     Substring (normalize query) (toLowerCase (name r))
     \/ Substring (normalize query) (toLowerCase (category r)) ->
     In r (items (mockSearchIn data query))) /\
  (forall keep : Record_ -> bool,
     (forall r, keep r = true <->
                Substring (normalize query) (toLowerCase (name r))
                \/ Substring (normalize query) (toLowerCase (category r))) ->
     Permutation (items (mockSearchIn data query)) (filter keep data)) /\
  (List.length (items (mockSearchIn data query)) <= List.length data)%nat /\
  (NoDup (map id data) -> NoDup (map id (items (mockSearchIn data query)))).
Proof.
  intros H. rewrite (mockSearchIn_items data query H).
  set (q := normalize query).
  assert (P := sort_perm byScoreDesc (filter (matches q) data)).
  split; [|split; [|split]].
  - intros r Hr Hm. apply sort_In, filter_In. split; [exact Hr|].
    now apply matches_iff.
  - intros keep Hk. rewrite P.
    assert (E : filter (matches q) data = filter keep data).
    { apply filter_ext. intros r.
      destruct (keep r) eqn:Ek.
      - apply matches_iff, Hk, Ek.
      - destruct (matches q r) eqn:Em; [|reflexivity].
        apply matches_iff, Hk in Em. congruence. }
    now rewrite E.
  - rewrite (Permutation_length P). apply filter_length_le.
  - intros Hn. eapply Permutation_NoDup.
    + apply Permutation_map. symmetry. exact P.
    + now apply filter_keeps_ids_distinct.
Qed.

(** X5.  White space around the query does not change what is found:
    the query with white space put before and after it has the same
    [items]. *)
Theorem mockSearch_padding (data : list Record_) (w1 query w2 : jsstring) :
  forallb isWhiteSpace w1 = true -> forallb isWhiteSpace w2 = true ->
  items (mockSearchIn data (w1 ++ query ++ w2))
  = items (mockSearchIn data query).
Proof.
  intros H1 H2. unfold mockSearchIn, normalize.
  rewrite trim_padding by assumption.
  destruct (toLowerCase (trim query)); reflexivity.
Qed.

(** X6.  Narrowing: when the normalised first query, not empty, occurs
    inside the normalised second query, the [items] of the second are
    the [items] of the first that match the second, in the same order. *)
Theorem mockSearch_narrow (data : list Record_) (q1 q2 : jsstring) :
  normalize q1 <> [] ->
  Substring (normalize q1) (normalize q2) ->
  items (mockSearchIn data q2)
  = filter (matches (normalize q2)) (items (mockSearchIn data q1)).
Proof.
  intros H1 Hs.
  assert (H2 : normalize q2 <> []).
  { destruct Hs as (a & b & E). rewrite E. intros E'.
    apply app_eq_nil in E' as [_ E']. apply app_eq_nil in E' as [E' _].
    contradiction. }
  rewrite (mockSearchIn_items data q1 H1), (mockSearchIn_items data q2 H2).
  rewrite filter_sort. f_equal.
  induction data as [|r data IH]; [reflexivity|]. cbn [filter].
  destruct (matches (normalize q2) r) eqn:E2.
  - rewrite (matches_narrow _ _ r Hs E2). cbn [filter]. rewrite E2.
    now f_equal.
  - destruct (matches (normalize q1) r); [cbn [filter]; rewrite E2|]; exact IH.
Qed.

End MoreQueryFacts.

Lemma mockSearch_complete_witness :
  In (mkRecord 7 (js "Glint Gateway") (js "FinTech") 73)
     (items (@mockSearchIn asciiHost MOCK_DATA (js "FinTech")))
  /\ NoDup (map id (items (@mockSearchIn asciiHost MOCK_DATA (js "FinTech")))).
Proof.
  destruct (@mockSearch_complete asciiHost MOCK_DATA (js "FinTech"))
    as (C & _ & _ & N).
  - vm_compute. discriminate.
  - split.
    + apply C.
      * cbn. tauto.
      * right. exists [], []. reflexivity.
    + apply N. vm_compute.
      repeat (constructor; [cbn; intuition discriminate|]). constructor.
Defined.

Lemma mockSearch_padding_witness :
  items (@mockSearchIn asciiHost MOCK_DATA ([9; 32]%N ++ js "docs" ++ [160; 10]%N))
  = items (@mockSearchIn asciiHost MOCK_DATA (js "docs")).
Proof.
  apply (@mockSearch_padding asciiHost MOCK_DATA [9; 32]%N (js "docs") [160; 10]%N);
    reflexivity.
Defined.

Lemma mockSearch_narrow_witness :
  items (@mockSearchIn asciiHost MOCK_DATA (js "Analytics S"))
  = filter (@matches asciiHost (@normalize asciiHost (js "Analytics S")))
           (items (@mockSearchIn asciiHost MOCK_DATA (js "an"))).
Proof.
  apply (@mockSearch_narrow asciiHost MOCK_DATA (js "an") (js "Analytics S")).
  - vm_compute. discriminate.
  - exists [], (js "alytics s"). reflexivity.
Defined.

(** ** File names *)

Lemma app_inj_length {A} (a a' b b' : list A) :
  List.length a = List.length a' -> a ++ b = a' ++ b' -> a = a' /\ b = b'.
Proof.
  revert a'. induction a as [|x a IH]; intros [|x' a'] Hl E;
    try discriminate Hl.
  - now split.
  - cbn in E. injection E as -> E. injection Hl as Hl.
    destruct (IH a' Hl E) as [-> ->]. now split.
Qed.

Lemma app_inj_length_tail {A} (a a' b b' : list A) :
  List.length b = List.length b' -> a ++ b = a' ++ b' -> a = a' /\ b = b'.
Proof.
  intros Hl E. apply app_inj_length; [|exact E].
  apply (f_equal (@List.length _)) in E. rewrite !length_app in E. lia.
Qed.

Lemma digits_inj (w : nat) (n m : Z) :
  0 <= n < 10 ^ Z.of_nat w -> 0 <= m < 10 ^ Z.of_nat w ->
  digits w n = digits w m -> n = m.
Proof.
  revert n m. induction w as [|w IH]; intros n m Hn Hm E.
  - cbn in Hn, Hm. lia.
  - rewrite Nat2Z.inj_succ, Z.pow_succ_r in Hn, Hm by lia.
    cbn [digits] in E. apply app_inj_tail in E as [E1 E2].
    assert (Hn10 := Z.mod_pos_bound n 10 ltac:(lia)).
    assert (Hm10 := Z.mod_pos_bound m 10 ltac:(lia)).
    apply (f_equal Z.of_N) in E2. rewrite !Z2N.id in E2 by lia.
    assert (Ediv : n / 10 = m / 10).
    { apply IH; [| |exact E1]; split;
        try (apply Z.div_pos; lia);
        apply Z.div_lt_upper_bound; lia. }
    rewrite (Z.div_mod n 10), (Z.div_mod m 10) by lia. lia.
Qed.

Lemma timestamp_fixed_width (d : LocalTime) :
  validClock d ->
  timestamp d
  = digits 4 (getFullYear d) ++ digits 2 (getMonth d + 1)
    ++ digits 2 (getDate d) ++ js "-" ++ digits 2 (getHours d)
    ++ digits 2 (getMinutes d) ++ digits 2 (getSeconds d).
Proof.
  intros (Hy & Hmo & Hd & Hh & Hmi & Hs). unfold timestamp.
  now rewrite year_digits, !pad_digits by lia.
Qed.

Lemma timestamp_length (d : LocalTime) :
  validClock d -> List.length (timestamp d) = 15%nat.
Proof.
  intros H. rewrite (timestamp_fixed_width d H).
  now rewrite !length_app, !digits_length.
Qed.

Lemma timestamp_inj (d1 d2 : LocalTime) :
  validClock d1 -> validClock d2 -> timestamp d1 = timestamp d2 -> d1 = d2.
Proof.
  intros V1 V2 E.
  rewrite (timestamp_fixed_width d1 V1), (timestamp_fixed_width d2 V2) in E.
  destruct V1 as (Hy1 & Hmo1 & Hd1 & Hh1 & Hmi1 & Hs1).
  destruct V2 as (Hy2 & Hmo2 & Hd2 & Hh2 & Hmi2 & Hs2).
  apply app_inj_length in E as [Ey E]; [|now rewrite !digits_length].
  apply app_inj_length in E as [Emo E]; [|now rewrite !digits_length].
  apply app_inj_length in E as [Ed E]; [|now rewrite !digits_length].
  apply app_inv_head in E.
  apply app_inj_length in E as [Eh E]; [|now rewrite !digits_length].
  apply app_inj_length in E as [Emi Es]; [|now rewrite !digits_length].
  apply digits_inj in Ey, Emo, Ed, Eh, Emi, Es; cbn; try lia.
  destruct d1, d2; cbn in *. f_equal; lia.
Qed.

(** X7.  For clock readings in the years 1000 to 9999 the time stamp is
    always fifteen code units long and determines the reading: two
    exports at different seconds never get the same stamp. *)
Theorem timestamp_injective (d1 d2 : LocalTime) :
  validClock d1 -> validClock d2 ->
  List.length (timestamp d1) = 15%nat /\
  (timestamp d1 = timestamp d2 -> d1 = d2).
Proof.
  intros V1 V2. split; [now apply timestamp_length | now apply timestamp_inj].
Qed.

Lemma timestamp_injective_witness :
  List.length (timestamp (mkTime 2025 8 25 2 15 30)) = 15%nat /\
  (timestamp (mkTime 2025 8 25 2 15 30) = timestamp (mkTime 2025 8 25 2 15 31) ->
   mkTime 2025 8 25 2 15 30 = mkTime 2025 8 25 2 15 31).
Proof.
  apply (timestamp_injective (mkTime 2025 8 25 2 15 30) (mkTime 2025 8 25 2 15 31));
    unfold validClock; cbn; lia.
Defined.

Lemma fname_inj (q1 q2 : jsstring) (d1 d2 : LocalTime) :
  validClock d1 -> validClock d2 ->
  exportFilteredCSV_fname q1 d1 = exportFilteredCSV_fname q2 d2 ->
  queryOrPlaceholder q1 = queryOrPlaceholder q2 /\ d1 = d2.
Proof.
  intros V1 V2 E. unfold exportFilteredCSV_fname in E.
  apply app_inv_head in E. rewrite !app_assoc in E.
  apply app_inv_tail in E. rewrite <- !app_assoc in E.
  apply app_inj_length_tail in E as [Eq Et].
  - apply app_inv_head in Et. split; [exact Eq | now apply timestamp_inj].
  - rewrite !length_app, !timestamp_length by assumption. reflexivity.
Qed.

(** X8.  For clock readings in the years 1000 to 9999, two filtered
    exports get the same file name exactly when they are made at the
    same second for the same submitted query, or one for the empty query
    and one for the query [empty]; and a filtered export gets the file
    name of the full export of the same second exactly when the
    submitted query is [all]. *)
Theorem export_fname_collisions (q1 q2 : jsstring) (d1 d2 : LocalTime) :
  validClock d1 -> validClock d2 ->
  (exportFilteredCSV_fname q1 d1 = exportFilteredCSV_fname q2 d2
   <-> d1 = d2 /\
       (q1 = q2 \/ (q1 = [] /\ q2 = js "empty") \/ (q1 = js "empty" /\ q2 = []))) /\
  (exportFilteredCSV_fname q1 d1 = exportAllCSV_fname d2
   <-> d1 = d2 /\ q1 = js "all").
Proof.
  intros V1 V2. split; split.
  - intros E. apply fname_inj in E as [Eq ->]; try assumption.
    split; [reflexivity|]. unfold queryOrPlaceholder in Eq.
    destruct q1, q2; auto.
  - intros [ -> [ -> | [[ -> -> ] | [ -> -> ]]]]; reflexivity.
  - intros E.
    change (exportAllCSV_fname d2)
      with (exportFilteredCSV_fname (js "all") d2) in E.
    apply fname_inj in E as [Eq ->]; try assumption.
    split; [reflexivity|]. destruct q1; [discriminate Eq | exact Eq].
  - intros [ -> -> ]. reflexivity.
Qed.

Lemma export_fname_collisions_witness :
  (exportFilteredCSV_fname [] (mkTime 2025 8 25 2 15 30)
   = exportFilteredCSV_fname (js "empty") (mkTime 2025 8 25 2 15 30))
  /\ (exportFilteredCSV_fname (js "all") (mkTime 2025 8 25 2 15 30)
      = exportAllCSV_fname (mkTime 2025 8 25 2 15 30)).
Proof.
  assert (V : validClock (mkTime 2025 8 25 2 15 30))
    by (unfold validClock; cbn; lia).
  destruct (export_fname_collisions [] (js "empty") _ _ V V) as [[_ H1] _].
  destruct (export_fname_collisions (js "all") (js "empty") _ _ V V) as [_ [_ H2]].
  split; [apply H1 | apply H2]; auto.
Defined.

(** ** The download *)

Lemma detach_absent (n : Browser.node) (l : list Browser.node) :
  ~ In n l -> Browser.detach n l = l.
Proof.
  unfold Browser.detach. induction l as [|m l IH]; [reflexivity|].
  intros H. cbn in *. destruct (Nat.eqb_spec m n) as [->|_]; [tauto|].
  cbn. f_equal. tauto.
Qed.

Lemma detach_last (n : Browser.node) (l : list Browser.node) :
  Browser.detach n (l ++ [n]) = Browser.detach n l.
Proof.
  unfold Browser.detach. rewrite filter_app. cbn.
  rewrite Nat.eqb_refl. cbn. apply app_nil_r.
Qed.

Lemma revoke_fresh (u : nat) (b : Browser.Blob)
  (st : list (nat * Browser.Blob)) :
  (forall e, In e st -> (fst e < u)%nat) ->
  filter (fun e => negb (Nat.eqb (fst e) u)) ((u, b) :: st) = st.
Proof.
  intros H. cbn [filter]. change (fst (u, b)) with u.
  rewrite Nat.eqb_refl. cbn [negb].
  induction st as [|e st IH]; [reflexivity|]. cbn [filter].
  assert (E : Nat.eqb (fst e) u = false).
  { apply Nat.eqb_neq. specialize (H e (or_introl eq_refl)). lia. }
  rewrite E. cbn [negb]. f_equal. apply IH. intros e' He'. apply H. now right.
Qed.

Lemma downloadCSV_started (filename : jsstring) (rows : list row)
  (columns : list jsstring) (p : Browser.page) :
  Browser.started (Browser.downloadCSV filename rows columns p)
  = Browser.started p
    ++ [Browser.mkDownload filename
          (Some (Browser.mkBlob (65279%N :: toCSV rows columns)
                                (js "text/csv;charset=utf-8")))
          true].
Proof.
  unfold Browser.downloadCSV, Browser.createObjectURL, Browser.createElement,
    Browser.setTimeout, Browser.remove, Browser.click, Browser.appendChild,
    Browser.resolve.
  cbn [Browser.started Browser.children Browser.store Browser.fresh
       Browser.timers Browser.element Browser.href Browser.downloadAttr
       find fst snd].
  rewrite Nat.eqb_refl, existsb_app. cbn [existsb].
  now rewrite Nat.eqb_refl, orb_true_r.
Qed.

(** X9.  [downloadCSV] starts exactly one download: under the file name
    given, from an anchor that is in the document when clicked, and with
    an [href] that resolves at that moment to a blob of type
    [text/csv;charset=utf-8] whose text is the byte-order mark followed
    by [toCSV rows columns]. *)
Theorem downloadCSV_starts (filename : jsstring) (rows : list row)
  (columns : list jsstring) (p : Browser.page) :
  Browser.started (Browser.downloadCSV filename rows columns p)
  = Browser.started p
    ++ [Browser.mkDownload filename
          (Some (Browser.mkBlob (65279%N :: toCSV rows columns)
                                (js "text/csv;charset=utf-8")))
          true].
Proof. apply downloadCSV_started. Qed.

(** X10.  On a page whose handles in use lie below the counter,
    [downloadCSV] leaves the children of [document.body] as they were,
    returns with the new object URL still resolvable and its revocation
    pending with a delay of 1000, and once that timeout has run the URL
    store is what it was before the call.  The page it leaves is again
    one whose handles lie below the counter. *)
Theorem downloadCSV_cleanup (filename : jsstring) (rows : list row)
  (columns : list jsstring) (p : Browser.page) :
  wellFormed p ->
  let p' := Browser.downloadCSV filename rows columns p in
  Browser.children p' = Browser.children p /\
  Browser.resolve (Browser.fresh p) p'
  = Some (Browser.mkBlob (65279%N :: toCSV rows columns)
                         (js "text/csv;charset=utf-8")) /\
  Browser.timers p'
  = Browser.timers p
    ++ [(1000, Browser.RevokeObjectURL (Browser.fresh p))] /\
  Browser.store
    (Browser.runTask (Browser.RevokeObjectURL (Browser.fresh p)) p')
  = Browser.store p /\
  (Browser.timers p = [] ->
   Browser.store (Browser.runTimers p') = Browser.store p /\
   Browser.timers (Browser.runTimers p') = []) /\
  wellFormed p'.
Proof.
  intros [Hc Hs] p'. subst p'.
  unfold Browser.downloadCSV, Browser.createObjectURL, Browser.createElement,
    Browser.setTimeout, Browser.remove, Browser.click, Browser.appendChild.
  cbn [Browser.started Browser.children Browser.store Browser.fresh
       Browser.timers Browser.element Browser.href Browser.downloadAttr].
  assert (Ha : ~ In (S (Browser.fresh p)) (Browser.children p)).
  { intros H. specialize (Hc _ H). lia. }
  split; [|split; [|split; [|split; [|split]]]].
  - rewrite detach_last, !detach_absent; auto.
    rewrite detach_absent; auto.
  - unfold Browser.resolve. cbn [Browser.store find fst snd].
    now rewrite Nat.eqb_refl.
  - reflexivity.
  - cbn [Browser.runTask Browser.revokeObjectURL Browser.store].
    now apply revoke_fresh.
  - intros Ht. unfold Browser.runTimers.
    cbn [Browser.timers Browser.children Browser.store Browser.fresh
         Browser.started].
    rewrite Ht. cbn [app fold_left snd Browser.runTask
                     Browser.revokeObjectURL Browser.store Browser.timers].
    split; [now apply revoke_fresh | reflexivity].
  - split; cbn [Browser.children Browser.store Browser.fresh].
    + intros n Hn. rewrite detach_last, !detach_absent in Hn; auto.
      * specialize (Hc n Hn). lia.
      * rewrite detach_absent; auto.
    + intros e [<-|He]; cbn; [lia|]. specialize (Hs e He). lia.
Qed.

Lemma downloadCSV_cleanup_witness :
  let p := Browser.mkPage [0; 1]%nat [] 2 [] [] in
  let p' := Browser.downloadCSV (js "f.csv") [[(js "a", VNum 1)]] [js "a"] p in
  Browser.children p' = [0; 1]%nat /\
  Browser.store (Browser.runTimers p') = [] /\
  wellFormed p'.
Proof.
  intros p p'.
  destruct (downloadCSV_cleanup (js "f.csv") [[(js "a", VNum 1)]] [js "a"] p)
    as (H1 & _ & _ & _ & H5 & H6).
  - split; cbn; [intros n [<-|[<-|[]]]; lia | intros e []].
  - split; [exact H1|]. split; [apply H5; reflexivity | exact H6].
Defined.

(** ** The export buttons *)

Lemma columns_Bare (c : jsstring) : In c App.columns -> Bare c.
Proof.
  intros Hc x Hx. cbn in Hc.
  destruct Hc as [<-|[<-|[<-|[<-|[]]]]]; cbn in Hx;
    repeat (destruct Hx as [<-|Hx]; [reflexivity|]); destruct Hx.
Qed.

Lemma parseCSV_records (rs : list Record_) :
  Rfc4180.parseCSV (toCSV (map rowOfRecord rs) App.columns)
  = App.columns :: map recordFields rs.
Proof.
  rewrite parseCSV_toCSV.
  - cbn [resolveColumns App.columns]. f_equal.
    rewrite map_map. apply map_ext. intros r. reflexivity.
  - discriminate.
  - apply columns_Bare.
Qed.

Lemma toCSV_no_records :
  toCSV (map rowOfRecord []) App.columns = js "id,name,category,score".
Proof. reflexivity. Qed.

Section ExportFacts.
Context {host : Host}.

(** X11.  Each export button starts one download whose text is the
    byte-order mark followed by a CSV that a reader takes apart into the
    header [id,name,category,score] and one record per row with the
    decimal [id], the [name], the [category] and the decimal [score],
    whatever characters the names hold: the rows are the [items] shown,
    in the order shown, for the filtered export, and the whole
    collection in its own order for the full export. *)
Theorem export_buttons (data : list Record_) (s : App.state)
  (d : LocalTime) (p : Browser.page) :
  (exists csv,
     Browser.started (App.exportFilteredCSV data s d p)
     = Browser.started p
       ++ [Browser.mkDownload
             (exportFilteredCSV_fname (App.submittedQuery s) d)
             (Some (Browser.mkBlob (65279%N :: csv)
                                   (js "text/csv;charset=utf-8")))
             true] /\
     Rfc4180.parseCSV csv
     = [js "id"; js "name"; js "category"; js "score"]
       :: map recordFields (items (App.result data s))) /\
  (exists csv,
     Browser.started (App.exportAllCSV data d p)
     = Browser.started p
       ++ [Browser.mkDownload
             (exportAllCSV_fname d)
             (Some (Browser.mkBlob (65279%N :: csv)
                                   (js "text/csv;charset=utf-8")))
             true] /\
     Rfc4180.parseCSV csv
     = [js "id"; js "name"; js "category"; js "score"]
       :: map recordFields data).
Proof.
  split; eexists; (split; [apply downloadCSV_started | apply parseCSV_records]).
Qed.

End ExportFacts.

Section ResetFacts.
Context {host : Host}.

(** X12.  On a host whose lower-casing keeps the empty string empty:
    when the submitted query is empty or white space only, the filtered
    export downloads the header line alone, under a file name that
    carries the submitted text as it is; after [onReset] nothing is
    shown and the export is named [results_empty_] plus the stamp. *)
Theorem export_without_results (data : list Record_) (s : App.state)
  (d : LocalTime) (p : Browser.page) :
  toLowerCase [] = [] ->
  (forallb isWhiteSpace (App.submittedQuery s) = true ->
   items (App.result data s) = [] /\
   Browser.started (App.exportFilteredCSV data s d p)
   = Browser.started p
     ++ [Browser.mkDownload
           (exportFilteredCSV_fname (App.submittedQuery s) d)
           (Some (Browser.mkBlob (65279%N :: js "id,name,category,score")
                                 (js "text/csv;charset=utf-8")))
           true]) /\
  (items (App.result data (App.onReset s)) = [] /\
   Browser.started (App.exportFilteredCSV data (App.onReset s) d p)
   = Browser.started p
     ++ [Browser.mkDownload
           (js "results_empty_" ++ timestamp d ++ js ".csv")
           (Some (Browser.mkBlob (65279%N :: js "id,name,category,score")
                                 (js "text/csv;charset=utf-8")))
           true]).
Proof.
  intros Hl.
  assert (K : forall s', forallb isWhiteSpace (App.submittedQuery s') = true ->
                         items (App.result data s') = []).
  { intros s' Hw. unfold App.result, mockSearchIn, normalize.
    now rewrite trim_all_space, Hl. }
  split.
  - intros Hw. split; [now apply K|].
    unfold App.exportFilteredCSV. rewrite downloadCSV_started, K by exact Hw.
    reflexivity.
  - split; [now apply K|].
    unfold App.exportFilteredCSV. rewrite downloadCSV_started, K by reflexivity.
    reflexivity.
Qed.

End ResetFacts.

Lemma export_without_results_witness :
  items (@App.result asciiHost MOCK_DATA (App.mkState (js "fin") (js "  "))) = []
  /\ items (@App.result asciiHost MOCK_DATA
              (App.onReset (App.mkState (js "fin") (js "fin")))) = [].
Proof.
  destruct (@export_without_results asciiHost MOCK_DATA
              (App.mkState (js "fin") (js "  "))
              (mkTime 2025 8 25 2 15 30)
              (Browser.mkPage [] [] 0 [] []) eq_refl) as [H1 _].
  destruct (@export_without_results asciiHost MOCK_DATA
              (App.mkState (js "fin") (js "fin"))
              (mkTime 2025 8 25 2 15 30)
              (Browser.mkPage [] [] 0 [] []) eq_refl) as [_ H2].
  split; [apply H1; reflexivity | apply H2].
Defined.

(** ** When [toCSV] throws *)

Lemma throws_Throw {A} (e : Dyn.error) : throws (@Dyn.Throw A e).
Proof. now exists e. Qed.

Lemma throws_Ret {A} (a : A) : ~ throws (Dyn.Ret a).
Proof. intros [e E]. discriminate E. Qed.

Lemma throws_bind_Ret {A B} (m : Dyn.outcome A) (g : A -> B) :
  throws (Dyn.bind m (fun x => Dyn.Ret (g x))) <-> throws m.
Proof.
  destruct m as [a|e]; cbn [Dyn.bind].
  - split; intros H; now apply throws_Ret in H.
  - split; intros _; apply throws_Throw.
Qed.

Lemma throws_mapM {A B} (f : A -> Dyn.outcome B) (l : list A) :
  throws (Dyn.mapM f l) <-> exists x, In x l /\ throws (f x).
Proof.
  induction l as [|x l IH]; cbn [Dyn.mapM].
  - split; [intros H; now apply throws_Ret in H | intros (x & [] & _)].
  - destruct (f x) as [y|e] eqn:Ex; cbn [Dyn.bind].
    + rewrite throws_bind_Ret, IH. split.
      * intros (x' & Hin & Hx'). exists x'. split; [now right | exact Hx'].
      * intros (x' & [<-|Hin] & Hx').
        -- rewrite Ex in Hx'. now apply throws_Ret in Hx'.
        -- now exists x'.
    + split; [|intros _; apply throws_Throw].
      intros _. exists x. split; [now left|]. rewrite Ex. apply throws_Throw.
Qed.

Lemma throws_escape (c : Dyn.cell) :
  throws (Dyn.escapeCSVValue c) <-> exists e, c = Dyn.Failing e.
Proof.
  destruct c as [v|e].
  - rewrite Dyn_escape_value. split; [intros H; now apply throws_Ret in H|].
    intros [e E]. discriminate E.
  - cbn. split; [intros _; now exists e | intros _; apply throws_Throw].
Qed.

(** The line of one row. *)
Lemma throws_row (cols : list jsstring) (r : Dyn.ref Dyn.drow) :
  throws (Dyn.bind
            (Dyn.mapM (fun c => Dyn.bind (Dyn.deref r)
                                  (fun o => Dyn.escapeCSVValue (Dyn.get o c)))
                      cols)
            (fun cells => Dyn.Ret (join [COMMA] cells)))
  <-> rowFails cols r.
Proof.
  rewrite throws_bind_Ret, throws_mapM. unfold rowFails.
  destruct r as [| |o]; cbn [Dyn.deref Dyn.bind].
  - split.
    + intros (c & Hin & _) ->. exact Hin.
    + destruct cols as [|c cols]; [congruence|]. intros _.
      exists c. split; [now left | apply throws_Throw].
  - split.
    + intros (c & Hin & _) ->. exact Hin.
    + destruct cols as [|c cols]; [congruence|]. intros _.
      exists c. split; [now left | apply throws_Throw].
  - split.
    + intros (c & Hin & Hc). apply throws_escape in Hc as [e E].
      now exists c, e.
    + intros (c & e & Hin & E). exists c. split; [exact Hin|].
      apply throws_escape. now exists e.
Qed.

Lemma throws_rows (cols : list jsstring) (rs : list (Dyn.ref Dyn.drow))
  (header : jsstring) :
  throws (Dyn.bind
            (Dyn.mapM (fun r =>
               Dyn.bind
                 (Dyn.mapM (fun c => Dyn.bind (Dyn.deref r)
                                       (fun o => Dyn.escapeCSVValue (Dyn.get o c)))
                           cols)
                 (fun cells => Dyn.Ret (join [COMMA] cells))) rs)
            (fun lines => Dyn.Ret (join CRLF (header :: lines))))
  <-> exists r, In r rs /\ rowFails cols r.
Proof.
  rewrite throws_bind_Ret, throws_mapM.
  split; intros (r & Hin & Hr); exists r; (split; [exact Hin|]);
    now apply throws_row.
Qed.

(** X13.  Where [toCSV] throws.  It throws when [rows] is [undefined]
    or [null].  Given an array of rows and a non-empty [columns], it
    throws exactly when building some row's line fails: the row is
    [undefined] or [null], or a cell of it under one of the columns is
    one that [String] cannot convert.  With [columns] missing or empty
    it returns the empty text for no rows, and otherwise throws exactly
    when the first row is [undefined] or [null], or building some row's
    line under the keys of the first row fails. *)
Theorem Dyn_toCSV_failure (rs : list (Dyn.ref Dyn.drow))
  (columns : Dyn.ref (list jsstring)) :
  (forall rows, noObject rows -> throws (Dyn.toCSV rows columns)) /\
  (forall cols, columns = Dyn.Obj cols -> cols <> [] ->
   (throws (Dyn.toCSV (Dyn.Obj rs) columns)
    <-> exists r, In r rs /\ rowFails cols r)) /\
  (Dyn.truthyLength columns = false ->
   Dyn.toCSV (Dyn.Obj []) columns = Dyn.Ret [] /\
   forall r0 rest,
     throws (Dyn.toCSV (Dyn.Obj (r0 :: rest)) columns)
     <-> noObject r0 \/
         exists o, r0 = Dyn.Obj o /\
                   exists r, In r (r0 :: rest) /\ rowFails (Dyn.keys o) r).
Proof.
  split; [|split].
  - intros rows Hn. unfold Dyn.toCSV.
    destruct rows as [| |a]; [| |contradiction];
      destruct columns as [| |[|c cs]]; apply throws_Throw.
  - intros cols -> Hne. destruct cols as [|c cs]; [congruence|].
    unfold Dyn.toCSV. cbn [Dyn.truthyLength Dyn.deref Dyn.bind].
    apply throws_rows.
  - intros Hf. split.
    + destruct columns as [| |[|c cs]]; try discriminate Hf; reflexivity.
    + intros r0 rest. unfold Dyn.toCSV. rewrite Hf.
      cbn [Dyn.deref Dyn.bind].
      destruct r0 as [| |o]; cbn [Dyn.deref Dyn.bind].
      * split; [intros _; now left | intros _; apply throws_Throw].
      * split; [intros _; now left | intros _; apply throws_Throw].
      * rewrite throws_rows. split.
        -- intros H. right. now exists o.
        -- intros [[]|(o' & Eo & H)]. now injection Eo as <-.
Qed.

Lemma Dyn_toCSV_failure_witness :
  throws (Dyn.toCSV (Dyn.Obj [Dyn.Obj [(js "a", Dyn.Value (VNum 1))]; Dyn.Null])
                    (Dyn.Obj [js "a"]))
  /\ throws (Dyn.toCSV (Dyn.Obj [Dyn.Obj [(js "a", Dyn.Failing Dyn.Raised)]])
                       (Dyn.Obj [js "b"; js "a"]))
  /\ Dyn.toCSV (Dyn.Obj []) Dyn.Undefined = Dyn.Ret []
  /\ throws (Dyn.toCSV (Dyn.Obj [Dyn.Obj [(js "a", Dyn.Value (VNum 1))]; Dyn.Null])
                       Dyn.Undefined).
Proof.
  split; [|split; [|split]].
  - apply (proj1 (proj2 (Dyn_toCSV_failure
                           [Dyn.Obj [(js "a", Dyn.Value (VNum 1))]; Dyn.Null]
                           (Dyn.Obj [js "a"]))) [js "a"] eq_refl);
      [discriminate|].
    exists Dyn.Null. split; [right; now left | discriminate].
  - apply (proj1 (proj2 (Dyn_toCSV_failure
                           [Dyn.Obj [(js "a", Dyn.Failing Dyn.Raised)]]
                           (Dyn.Obj [js "b"; js "a"]))) [js "b"; js "a"] eq_refl);
      [discriminate|].
    eexists. split; [now left|]. exists (js "a"), Dyn.Raised.
    split; [right; now left | reflexivity].
  - apply (proj2 (proj2 (Dyn_toCSV_failure [] Dyn.Undefined)) eq_refl).
  - apply (proj2 (proj2 (Dyn_toCSV_failure [] Dyn.Undefined)) eq_refl).
    right. eexists. split; [reflexivity|].
    exists Dyn.Null. split; [right; now left | discriminate].
Defined.

(** ** Order of time stamps *)

Lemma lexLt_irrefl (a : jsstring) : lexLt a a = false.
Proof.
  induction a as [|x a IH]; [reflexivity|]. cbn.
  now rewrite N.ltb_irrefl, N.eqb_refl, IH.
Qed.

Lemma lexLt_blocks (a a' b b' : jsstring) :
  List.length a = List.length a' ->
  (lexLt (a ++ b) (a' ++ b') = true
   <-> lexLt a a' = true \/ (a = a' /\ lexLt b b' = true)).
Proof.
  revert a'. induction a as [|x a IH]; intros [|y a'] Hl;
    try discriminate Hl.
  - cbn [app]. split; [now right | intros [H|[_ H]]; [discriminate H | exact H]].
  - injection Hl as Hl. cbn [app lexLt].
    rewrite !orb_true_iff, !andb_true_iff, (IH a' Hl), N.eqb_eq.
    split.
    + intros [H|[-> [H|[-> H]]]]; auto.
    + intros [[H|[-> H]]|[E H]]; auto.
      injection E as -> ->. auto.
Qed.

Lemma digits_lt (w : nat) (n m : Z) :
  0 <= n < 10 ^ Z.of_nat w -> 0 <= m < 10 ^ Z.of_nat w ->
  (lexLt (digits w n) (digits w m) = true <-> n < m).
Proof.
  revert n m. induction w as [|w IH]; intros n m Hn Hm.
  - cbn in *. split; [discriminate | lia].
  - rewrite Nat2Z.inj_succ, Z.pow_succ_r in Hn, Hm by lia.
    assert (Hn10 := Z.mod_pos_bound n 10 ltac:(lia)).
    assert (Hm10 := Z.mod_pos_bound m 10 ltac:(lia)).
    assert (Rn : 0 <= n / 10 < 10 ^ Z.of_nat w)
      by (split; [apply Z.div_pos; lia | apply Z.div_lt_upper_bound; lia]).
    assert (Rm : 0 <= m / 10 < 10 ^ Z.of_nat w)
      by (split; [apply Z.div_pos; lia | apply Z.div_lt_upper_bound; lia]).
    assert (En := Z.div_mod n 10 ltac:(lia)).
    assert (Em := Z.div_mod m 10 ltac:(lia)).
    cbn [digits]. rewrite lexLt_blocks by now rewrite !digits_length.
    rewrite (IH _ _ Rn Rm). cbn [lexLt].
    rewrite orb_true_iff, andb_false_r, N.ltb_lt. split.
    + intros [H|[E [H|H]]]; [lia| |discriminate H].
      apply digits_inj in E; [|assumption|assumption]. lia.
    + intros H.
      destruct (Z.lt_ge_cases (n / 10) (m / 10)) as [Hlt|Hge]; [now left|].
      right. assert (E : n / 10 = m / 10) by lia.
      split; [now rewrite E|]. left. lia.
Qed.

(** X14.  For clock readings in the years 1000 to 9999, time stamps
    compare as strings the way the readings compare in time, and so do
    the file names of two filtered exports of one submitted query: an
    earlier export sorts first. *)
Theorem timestamp_order (q : jsstring) (d1 d2 : LocalTime) :
  validClock d1 -> validClock d2 ->
  (lexLt (timestamp d1) (timestamp d2) = true <-> earlier d1 d2) /\
  (lexLt (exportFilteredCSV_fname q d1) (exportFilteredCSV_fname q d2) = true
   <-> earlier d1 d2).
Proof.
  intros V1 V2.
  assert (T : lexLt (timestamp d1) (timestamp d2) = true <-> earlier d1 d2).
  { rewrite (timestamp_fixed_width d1 V1), (timestamp_fixed_width d2 V2).
    destruct V1 as (Hy1 & Hmo1 & Hd1 & Hh1 & Hmi1 & Hs1).
    destruct V2 as (Hy2 & Hmo2 & Hd2 & Hh2 & Hmi2 & Hs2).
    unfold earlier.
    assert (L : forall w n m, List.length (digits w n) = List.length (digits w m))
      by (intros; now rewrite !digits_length).
    assert (I : forall w n m, 0 <= n < 10 ^ Z.of_nat w -> 0 <= m < 10 ^ Z.of_nat w ->
                              (digits w n = digits w m <-> n = m))
      by (intros w n m Hn Hm; split; [now apply digits_inj | now intros ->]).
    rewrite lexLt_blocks, digits_lt, I by (auto; cbn; lia).
    rewrite lexLt_blocks, digits_lt, I by (auto; cbn; lia).
    rewrite lexLt_blocks, digits_lt, I by (auto; cbn; lia).
    rewrite (lexLt_blocks (js "-") (js "-")) by reflexivity.
    rewrite lexLt_blocks, digits_lt, I by (auto; cbn; lia).
    rewrite lexLt_blocks, digits_lt, I by (auto; cbn; lia).
    rewrite digits_lt by (cbn; lia).
    rewrite lexLt_irrefl. intuition (try discriminate; lia). }
  split; [exact T|].
  unfold exportFilteredCSV_fname.
  rewrite lexLt_blocks, lexLt_irrefl by reflexivity.
  rewrite lexLt_blocks, lexLt_irrefl by reflexivity.
  rewrite lexLt_blocks, lexLt_irrefl by reflexivity.
  rewrite lexLt_blocks, lexLt_irrefl, T
    by (rewrite !timestamp_length; auto).
  intuition discriminate.
Qed.

Lemma timestamp_order_witness :
  lexLt (exportFilteredCSV_fname (js "fin") (mkTime 2025 8 25 23 59 59))
        (exportFilteredCSV_fname (js "fin") (mkTime 2025 9 1 0 0 0)) = true.
Proof.
  apply (proj2 (timestamp_order (js "fin") (mkTime 2025 8 25 23 59 59)
                  (mkTime 2025 9 1 0 0 0)
                  ltac:(unfold validClock; cbn; lia)
                  ltac:(unfold validClock; cbn; lia))).
  unfold earlier. cbn. lia.
Defined.
